(** * Chunked rendering and the render state machine

    A shallow embedding of
    - [model_and_model_component/render_image_LinGaoyuan.py]
      ([render_single_image], the chunked aggregation loop),
    - [render_state_machine.py] (the [RenderStateMachine] class),
    - [visualization.py] (the per-client registry of the [Viewer] class),
    - [viewer.py] (how its [Viewer] drives the state machine),
    together with the properties the specification states about them. *)

From stdpp Require Import base option list strings gmap.
From Stdlib Require Import ZArith Lia.

Local Open Scope Z_scope.
Local Open Scope nat_scope.

(** ** Python preliminaries *)

(** Keys of the dictionaries used in the sources: strings for field
    names, integers for client ids. *)
Inductive pykey :=
  | KStr (s : string)
  | KInt (z : Z).

(** The exceptions the sources can meet.  [Raised] stands for any
    exception the external evaluator raises on its own. *)
Inductive exn :=
  | KeyError (k : pykey)
  | TypeError
  | ValueError
  | RuntimeError
  | AttributeError
  | Raised (tag : string).

(** Outcome of a Python call: a value, or an exception leaving the call. *)
Inductive result (A : Type) :=
  | Ok (a : A)
  | Raise (e : exn).
Arguments Ok {A} a.
Arguments Raise {A} e.

#[global] Instance result_ret : MRet result := fun A a => Ok a.
#[global] Instance result_bind : MBind result := fun A B f m =>
  match m with
  | Ok a => f a
  | Raise e => Raise e
  end.

(** Peel the first call of a sequence that is known to end normally. *)
Ltac peel H :=
  match type of H with
  | mbind _ ?m = Ok _ =>
      let E := fresh "E" in
      destruct m eqn:E; cbn [mbind result_bind] in H; [|discriminate H]
  end.

Definition is_ok {A} (r : result A) : bool :=
  match r with Ok _ => true | Raise _ => false end.

(** A numpy array or torch tensor: its shape and its elements in
    row-major order. *)
Record array := { shape : list nat; data : list Z }.

Definition numel (sh : list nat) : nat := foldr Nat.mul 1 sh.

(** [len(a)]: the size of the first dimension; a 0-dimensional array is
    unsized. *)
Definition len (a : array) : result nat :=
  match shape a with
  | [] => Raise TypeError
  | n :: _ => Ok n
  end.

(** ** render_state_machine.py *)

Module RenderStateMachine.

Inductive RenderState := IDLE | RENDERING | PROCESSING | VISUALIZING | ERROR.

#[global] Instance RenderState_eq_dec : EqDecision RenderState.
Proof. solve_decision. Defined.

Record Metadata := { timestamp : Z; num_points : nat }.

Record RenderOutput := {
  points : array;
  colors : array;
  depths : array;
  normals : option array;
  metadata : option Metadata
}.

(** The lock only serialises the methods; every method is one atomic
    step of the machine below. *)
Record t := {
  state : RenderState;
  current_output : option RenderOutput;
  output_queue : list RenderOutput
}.

(** [__init__] *)
Definition init : t :=
  {| state := IDLE; current_output := None; output_queue := [] |}.

Definition set_state (s : RenderState) (sm : t) : t :=
  {| state := s; current_output := current_output sm;
     output_queue := output_queue sm |}.

Definition start_render (sm : t) : t :=
  if decide (state sm = IDLE) then set_state RENDERING sm else sm.

(** [render_data[k]] *)
Definition getitem (render_data : gmap string array) (k : string) : result array :=
  match render_data !! k with
  | Some a => Ok a
  | None => Raise (KeyError (KStr k))
  end.

(** The [RenderOutput(...)] constructor call; [now] is the clock reading
    [np.datetime64('now')]. *)
Definition make_output (render_data : gmap string array) (now : Z)
  : result RenderOutput :=
  p ← getitem render_data "points";
  c ← getitem render_data "colors";
  d ← getitem render_data "depths";
  let n := render_data !! "normals" in
  p' ← getitem render_data "points";
  np ← len p';
  mret {| points := p; colors := c; depths := d; normals := n;
          metadata := Some {| timestamp := now; num_points := np |} |}.

(** The body of the [try] block, run on a machine already moved to
    [PROCESSING]. *)
Definition publish (sm : t) (render_data : gmap string array) (now : Z)
  : result t :=
  output ← make_output render_data now;
  mret {| state := VISUALIZING;
          current_output := Some output;
          output_queue := output_queue sm ++ [output] |}.

(** [except Exception] catches whatever the body raises, so nothing
    leaves the method; the message it prints is left out. *)
Definition process_render_output (sm : t) (render_data : gmap string array)
    (now : Z) : result t :=
  if decide (state sm = RENDERING) then
    let sm1 := set_state PROCESSING sm in
    match publish sm1 render_data now with
    | Ok sm2 => Ok sm2
    | Raise _ => Ok (set_state ERROR sm1)
    end
  else Ok sm.

Definition get_latest_output (sm : t) : option RenderOutput :=
  current_output sm.

(** [queue.get(timeout=...)]: the oldest queued output, or [None] when the
    queue stays empty. *)
Definition get_next_output (sm : t) : option RenderOutput * t :=
  match output_queue sm with
  | [] => (None, sm)
  | o :: q => (Some o, {| state := state sm;
                          current_output := current_output sm;
                          output_queue := q |})
  end.

(** [while not q.empty(): q.get_nowait()] *)
Fixpoint drain (q : list RenderOutput) : list RenderOutput :=
  match q with
  | [] => []
  | _ :: q' => drain q'
  end.

Definition reset (sm : t) : t :=
  {| state := IDLE; current_output := None;
     output_queue := drain (output_queue sm) |}.

Definition is_rendering (sm : t) : bool := bool_decide (state sm = RENDERING).
Definition is_processing (sm : t) : bool := bool_decide (state sm = PROCESSING).
Definition is_visualizing (sm : t) : bool := bool_decide (state sm = VISUALIZING).
Definition has_error (sm : t) : bool := bool_decide (state sm = ERROR).

(** *** Schedules of calls on one machine *)

Inductive call :=
  | CallStart
  | CallPublish (render_data : gmap string array) (now : Z)
  | CallPoll
  | CallReset.

(** What a schedule makes observable: the outputs that entered the queue,
    the outputs that left it (handed to a poll, or thrown away by a
    reset), and the resets themselves. *)
Inductive event :=
  | Published (o : RenderOutput)
  | Polled (o : RenderOutput)
  | Dropped (o : RenderOutput)
  | WasReset.

(** Outputs that a publish appended to the queue of [sm]. *)
Definition newly_queued (before after : t) : list event :=
  Published <$> drop (length (output_queue before)) (output_queue after).

Definition step (c : call) (sm : t) : t * list event :=
  match c with
  | CallStart => (start_render sm, [])
  | CallPublish render_data now =>
      match process_render_output sm render_data now with
      | Ok sm' => (sm', newly_queued sm sm')
      | Raise _ => (sm, [])
      end
  | CallPoll =>
      match get_next_output sm with
      | (Some o, sm') => (sm', [Polled o])
      | (None, sm') => (sm', [])
      end
  | CallReset => (reset sm, (Dropped <$> output_queue sm) ++ [WasReset])
  end.

Fixpoint run (cs : list call) (sm : t) : t * list event :=
  match cs with
  | [] => (sm, [])
  | c :: cs' =>
      let '(sm1, ev1) := step c sm in
      let '(sm2, ev2) := run cs' sm1 in
      (sm2, ev1 ++ ev2)
  end.

Definition published (log : list event) : list RenderOutput :=
  omap (fun e => match e with Published o => Some o | _ => None end) log.

Definition polled (log : list event) : list RenderOutput :=
  omap (fun e => match e with Polled o => Some o | _ => None end) log.

Definition dropped (log : list event) : list RenderOutput :=
  omap (fun e => match e with Dropped o => Some o | _ => None end) log.

(** Outputs that left the queue, in the order they left it. *)
Definition removed (log : list event) : list RenderOutput :=
  omap (fun e => match e with
                 | Polled o | Dropped o => Some o
                 | _ => None
                 end) log.

(** The output the slot must hold after [log], starting from [slot]. *)
Definition latest (slot : option RenderOutput) (log : list event)
  : option RenderOutput :=
  foldl (fun cur e => match e with
                      | Published o => Some o
                      | WasReset => None
                      | _ => cur
                      end) slot log.

(** A machine between two calls of a run that began at [init]: nothing
    is queued or in the slot outside [VISUALIZING], and in [VISUALIZING]
    the slot holds the output that is, or was, the only one queued. *)
Definition settled (sm : t) : Prop :=
  match state sm with
  | IDLE | RENDERING | ERROR => current_output sm = None /\ output_queue sm = []
  | VISUALIZING =>
      exists o, current_output sm = Some o
                /\ (output_queue sm = [o] \/ output_queue sm = [])
  | PROCESSING => False
  end.

End RenderStateMachine.

(** ** torch operations used by the aggregation *)

Module Torch.

(** Size of the first dimension. *)
Definition dim0 (t : array) : nat := default 0 (head (shape t)).

(** [torch.cat(ts, dim=0)].  Every element must be a tensor; a
    0-dimensional tensor cannot be concatenated; tensors of shape [(0,)]
    are skipped; the others must agree on every dimension but the first. *)
Definition cat (ts : list array) : result array :=
  match ts with
  | [] => Raise RuntimeError
  | _ :: _ =>
      if existsb (fun t => bool_decide (shape t = [])) ts then Raise RuntimeError
      else
        match filter (fun t => shape t ≠ [0]) ts with
        | [] => Ok {| shape := [0]; data := [] |}
        | t0 :: rest =>
            if forallb (fun t => bool_decide (tail (shape t) = tail (shape t0))) rest
            then Ok {| shape := sum_list (dim0 <$> t0 :: rest)
                                  :: tail (shape t0);
                       data := concat (data <$> t0 :: rest) |}
            else Raise RuntimeError
        end
  end.

(** A Python list handed to [torch.cat] may hold [None]. *)
Definition cat_opt (ts : list (option array)) : result array :=
  match mapM id ts with
  | Some ts' => cat ts'
  | None => Raise TypeError
  end.

(** [t.reshape((h, w, -1))] *)
Definition reshape_grid (h w : nat) (t : array) : result array :=
  let n := numel (shape t) in
  if decide (h * w = 0) then Raise RuntimeError
  else if decide (n `mod` (h * w) = 0)
       then Ok {| shape := [h; w; n `div` (h * w)]; data := data t |}
       else Raise RuntimeError.

(** [t.squeeze()]: every dimension of size 1 is removed. *)
Definition squeeze (t : array) : array :=
  {| shape := filter (fun n => n ≠ 1) (shape t); data := data t |}.

(** [len(torch.ones(n)[::stride])] *)
Definition strided (n stride : nat) : result nat :=
  if decide (stride = 0) then Raise ValueError
  else Ok ((n + stride - 1) `div` stride).

End Torch.

(** ** render_image_LinGaoyuan.py *)

Module RenderImage.

#[global] Instance result_fmap : FMap result := fun A B f m =>
  match m with
  | Ok a => Ok (f a)
  | Raise e => Raise e
  end.

(** *** Dictionaries

    A [dict] or [OrderedDict] with string keys, in insertion order. *)
Abbreviation dict V := (list (string * V)) (only parsing).

Fixpoint dict_get {V} (k : string) (d : dict V) : option V :=
  match d with
  | [] => None
  | (k', v) :: d' => if decide (k' = k) then Some v else dict_get k d'
  end.

(** [d[k] = v]: an existing key keeps its place, a new key goes last. *)
Fixpoint dict_set {V} (k : string) (v : V) (d : dict V) : dict V :=
  match d with
  | [] => [(k, v)]
  | (k', v') :: d' =>
      if decide (k' = k) then (k, v) :: d' else (k', v') :: dict_set k v d'
  end.

Definition dict_keys {V} (d : dict V) : list string := d.*1.

(** [d[k]] as an expression *)
Definition dict_getitem {V} (k : string) (d : dict V) : result V :=
  match dict_get k d with
  | Some v => Ok v
  | None => Raise (KeyError (KStr k))
  end.

(** The visits of [for k in d: if d[k] is not None: ...], with the value
    [d[k]] each visit sees. *)
Definition nonnull {V} (d : dict (option V)) : list (string * V) :=
  omap (fun k => match dict_get k d with
                 | Some (Some v) => Some (k, v)
                 | _ => None
                 end) (dict_keys d).

(** [range(start, stop, step)] for non-negative arguments: the length is
    computed first, the elements are [start + k * step]. *)
Definition py_range (start stop step : nat) : result (list nat) :=
  if decide (step = 0) then Raise ValueError
  else Ok ((fun k => start + k * step) <$>
           seq 0 (if decide (start < stop)
                  then (stop - start - 1) `div` step + 1 else 0)).

(** [l[i:j]] for [0 <= i], along the first axis. *)
Definition py_slice {X} (i j : nat) (l : list X) : list X :=
  take (j - i) (drop i l).

(** *** Data of one render call *)

Record ThreeD (R T : Type) := {
  ray_origins : R;
  ray_directions : R;
  sample_points : T;
  features : T;
  colors : T;
  densities : T;
  weights : T;
  z_values : T
}.
Arguments ray_origins {R T} _.
Arguments ray_directions {R T} _.
Arguments sample_points {R T} _.
Arguments features {R T} _.
Arguments colors {R T} _.
Arguments densities {R T} _.
Arguments weights {R T} _.
Arguments z_values {R T} _.

(** An output tier of one evaluator call: field name to tensor or [None]. *)
Abbreviation Tier := (dict (option array)) (only parsing).

(** What [render_rays] returns: [ret["outputs_coarse"]],
    [ret["outputs_fine"]] (possibly [None]) and the other entries of
    [ret]. *)
Record ChunkResult := {
  ret_outputs_coarse : Tier;
  ret_outputs_fine : option Tier;
  ret_extra : dict (option array)
}.

(** An entry of [three_d_data] after the merge: the empty list it started
    as, or the concatenation. *)
Inductive merged (X : Type) :=
  | StillEmpty
  | Merged (x : X).
Arguments StillEmpty {X}.
Arguments Merged {X} x.

(** A field of a returned tier: the list of per-chunk tensors, or the
    image-shaped tensor. *)
Inductive field_value :=
  | PerChunk (chunks : list array)
  | Image (t : array).

Definition shared_keys : list string :=
  ["camera"; "depth_range"; "src_rgbs"; "src_cameras"].

(** The two keys the merge loops skip. *)
Definition exempt (k : string) : bool :=
  bool_decide (k = "random_sigma") || bool_decide (k = "depth_cov").

(** [if k in ret: l.append(ret[k])] *)
Definition append_if_in {V} (k : string) (d : dict V) (l : list V) : list V :=
  match dict_get k d with
  | Some v => l ++ [v]
  | None => l
  end.

(** [for k in tier: if tier[k] is not None: all[k] = []] *)
Definition discover (tier : Tier) (all : dict (list array)) : dict (list array) :=
  foldl (fun d kv => dict_set kv.1 [] d) all (nonnull tier).

(** [all[k].append(v)] *)
Definition dict_append (k : string) (v : array) (all : dict (list array))
  : result (dict (list array)) :=
  l ← dict_getitem k all;
  mret (dict_set k (l ++ [v]) all).

(** [for k in tier: if tier[k] is not None: all[k].append(tier[k])] *)
Fixpoint append_all (items : list (string * array)) (all : dict (list array))
  : result (dict (list array)) :=
  match items with
  | [] => Ok all
  | (k, v) :: rest => all' ← dict_append k v all; append_all rest all'
  end.

(** Subscripting [all_ret["outputs_fine"]] when it is [None] is a
    [TypeError]; it happens at the first visit of the loop, if any. *)
Definition on_fine (f : list (string * array) -> dict (list array) ->
                        result (dict (list array)))
    (tier : Tier) (all_fine : option (dict (list array)))
  : result (option (dict (list array))) :=
  match all_fine with
  | Some d => Some <$> f (nonnull tier) d
  | None => match nonnull tier with
            | [] => Ok None
            | _ :: _ => Raise TypeError
            end
  end.

(** The merge loop over one tier (lines 152-163 and 168-180): exempt keys
    keep their list, the others are concatenated, reshaped and squeezed. *)
Fixpoint merge_tier (h w : nat) (all : dict (list array))
  : result (dict field_value) :=
  match all with
  | [] => Ok []
  | (k, chunks) :: all' =>
      if exempt k then
        rest ← merge_tier h w all';
        mret ((k, PerChunk chunks) :: rest)
      else
        c ← Torch.cat chunks;
        tmp ← Torch.reshape_grid h w c;
        rest ← merge_tier h w all';
        mret ((k, Image (Torch.squeeze tmp)) :: rest)
  end.

Section Render.

(** [A] is the type of one row of a per-ray tensor of the batch, [S] the
    state of whatever the evaluator touches. *)
Context {A S : Type}.

(** A ray batch, and a chunk of it: key to tensor (the list of its rows
    along the first axis) or [None]. *)
Local Abbreviation RayBatch := (dict (option (list A))) (only parsing).

(** [render_rays], with the arguments that are the same for every chunk
    left out: the chunk and the chunk of the depth prior go in, a result
    or an exception comes out. *)
Definition Evaluator : Type :=
  RayBatch -> option (list A) -> S -> result ChunkResult * S.

Record Accum := {
  acc_coarse : dict (list array);
  acc_fine : option (dict (list array));
  acc_three_d : ThreeD (list (option (list A))) (list (option array))
}.

(** What [render_single_image] returns. *)
Record AllRet := {
  outputs_coarse : dict field_value;
  outputs_fine : option (dict field_value);
  three_d_data : ThreeD (merged (list A)) (merged array)
}.

(** The state before the loop (lines 44-58). *)
Definition initial : Accum :=
  {| acc_coarse := [];
     acc_fine := Some [];
     acc_three_d := {| ray_origins := []; ray_directions := [];
                       sample_points := []; features := []; colors := [];
                       densities := []; weights := []; z_values := [] |} |}.

(** [ray_batch["ray_o"].shape[0]] *)
Definition n_rays (ray_batch : RayBatch) : result nat :=
  o ← dict_getitem "ray_o" ray_batch;
  match o with
  | Some rays => Ok (length rays)
  | None => Raise AttributeError
  end.

(** Lines 61-68. *)
Definition build_chunk (ray_batch : RayBatch) (chunk_size i : nat) : RayBatch :=
  (fun kv : string * option (list A) =>
     if bool_decide (kv.1 ∈ shared_keys) then kv
     else (kv.1, py_slice i (i + chunk_size) <$> kv.2)) <$> ray_batch.

(** Lines 74-77. *)
Definition prior_chunk (train_depth_prior : option (list A))
    (use_updated_prior_depth : bool) (chunk_size i : nat) : option (list A) :=
  match train_depth_prior with
  | Some p => if use_updated_prior_depth
              then Some (py_slice i (i + chunk_size) p) else None
  | None => None
  end.

(** Lines 80-81. *)
Definition store_rays (chunk : RayBatch) (acc : Accum) : result Accum :=
  ro ← dict_getitem "ray_o" chunk;
  rd ← dict_getitem "ray_d" chunk;
  let td := acc_three_d acc in
  mret {| acc_coarse := acc_coarse acc;
          acc_fine := acc_fine acc;
          acc_three_d :=
            {| ray_origins := ray_origins td ++ [ro];
               ray_directions := ray_directions td ++ [rd];
               sample_points := sample_points td;
               features := features td; colors := colors td;
               densities := densities td; weights := weights td;
               z_values := z_values td |} |}.

(** Lines 106-117. *)
Definition store_samples (ret : ChunkResult)
    (td : ThreeD (list (option (list A))) (list (option array)))
  : ThreeD (list (option (list A))) (list (option array)) :=
  {| ray_origins := ray_origins td;
     ray_directions := ray_directions td;
     sample_points := append_if_in "sample_points" (ret_extra ret) (sample_points td);
     features := append_if_in "features" (ret_extra ret) (features td);
     colors := append_if_in "colors" (ret_extra ret) (colors td);
     densities := append_if_in "densities" (ret_extra ret) (densities td);
     weights := append_if_in "weights" (ret_outputs_coarse ret) (weights td);
     z_values := append_if_in "z_vals" (ret_extra ret) (z_values td) |}.

(** Lines 121-131, the schema of the first chunk. *)
Definition first_chunk (ret : ChunkResult) (coarse : dict (list array))
    (fine : option (dict (list array)))
  : result (dict (list array) * option (dict (list array))) :=
  let coarse' := discover (ret_outputs_coarse ret) coarse in
  match ret_outputs_fine ret with
  | None => Ok (coarse', None)
  | Some tier =>
      fine' ← on_fine (fun items d => Ok (discover tier d)) tier fine;
      mret (coarse', fine')
  end.

(** Lines 106-140: what the loop does with the result of chunk [i]. *)
Definition accumulate (i : nat) (ret : ChunkResult) (acc : Accum) : result Accum :=
  let td := store_samples ret (acc_three_d acc) in
  cf ← (if decide (i = 0)
        then first_chunk ret (acc_coarse acc) (acc_fine acc)
        else Ok (acc_coarse acc, acc_fine acc));
  coarse ← append_all (nonnull (ret_outputs_coarse ret)) cf.1;
  fine ← match ret_outputs_fine ret with
         | Some tier => on_fine append_all tier cf.2
         | None => Ok cf.2
         end;
  mret {| acc_coarse := coarse; acc_fine := fine; acc_three_d := td |}.

Section Loop.

Variable render_rays : Evaluator.
Variable ray_batch : RayBatch.
Variable chunk_size : nat.
Variable train_depth_prior : option (list A).
Variable use_updated_prior_depth : bool.

(** One iteration of the loop of line 60. *)
Definition chunk_step (i : nat) (acc : Accum) (s : S) : result Accum * S :=
  let chunk := build_chunk ray_batch chunk_size i in
  let prior := prior_chunk train_depth_prior use_updated_prior_depth chunk_size i in
  match store_rays chunk acc with
  | Raise e => (Raise e, s)
  | Ok acc1 =>
      match render_rays chunk prior s with
      | (Raise e, s') => (Raise e, s')
      | (Ok ret, s') => (accumulate i ret acc1, s')
      end
  end.

(** The loop over the start indices; an exception ends it. *)
Fixpoint render_chunks (starts : list nat) (acc : Accum) (s : S)
  : result Accum * S :=
  match starts with
  | [] => (Ok acc, s)
  | i :: rest =>
      match chunk_step i acc s with
      | (Ok acc', s') => render_chunks rest acc' s'
      | (Raise e, s') => (Raise e, s')
      end
  end.

End Loop.

(** Lines 143-145 for the two ray entries. *)
Definition merge_rays (l : list (option (list A))) : result (merged (list A)) :=
  match l with
  | [] => Ok StillEmpty
  | _ :: _ => match mapM id l with
              | Some ls => Ok (Merged (concat ls))
              | None => Raise TypeError
              end
  end.

(** Lines 143-145 for the sample entries. *)
Definition merge_samples (l : list (option array)) : result (merged array) :=
  match l with
  | [] => Ok StillEmpty
  | _ :: _ => Merged <$> Torch.cat_opt l
  end.

(** Lines 143-182. *)
Definition finalize (H W render_stride : nat) (acc : Accum) : result AllRet :=
  let td := acc_three_d acc in
  ro ← merge_rays (ray_origins td);
  rd ← merge_rays (ray_directions td);
  sp ← merge_samples (sample_points td);
  fe ← merge_samples (features td);
  co ← merge_samples (colors td);
  de ← merge_samples (densities td);
  we ← merge_samples (weights td);
  zv ← merge_samples (z_values td);
  h ← Torch.strided H render_stride;
  w ← Torch.strided W render_stride;
  coarse ← merge_tier h w (acc_coarse acc);
  fine ← match acc_fine acc with
         | Some d => Some <$> merge_tier h w d
         | None => Ok None
         end;
  mret {| outputs_coarse := coarse;
          outputs_fine := fine;
          three_d_data :=
            {| ray_origins := ro; ray_directions := rd; sample_points := sp;
               features := fe; colors := co; densities := de; weights := we;
               z_values := zv |} |}.

(** The accumulation loop of one render call (lines 44-140). *)
Definition render_loop (render_rays : Evaluator) (ray_batch : RayBatch)
    (chunk_size : nat) (train_depth_prior : option (list A))
    (use_updated_prior_depth : bool) (s : S) : result Accum * S :=
  match n_rays ray_batch with
  | Raise e => (Raise e, s)
  | Ok N =>
      match py_range 0 N chunk_size with
      | Raise e => (Raise e, s)
      | Ok starts =>
          render_chunks render_rays ray_batch chunk_size train_depth_prior
            use_updated_prior_depth starts initial s
      end
  end.

(** [H] and [W] are [ray_sampler.H] and [ray_sampler.W]. *)
Definition render_single_image (render_rays : Evaluator) (H W : nat)
    (ray_batch : RayBatch) (chunk_size render_stride : nat)
    (train_depth_prior : option (list A)) (use_updated_prior_depth : bool)
    (s : S) : result AllRet * S :=
  match render_loop render_rays ray_batch chunk_size train_depth_prior
          use_updated_prior_depth s with
  | (Raise e, s') => (Raise e, s')
  | (Ok acc, s') => (finalize H W render_stride acc, s')
  end.

End Render.

Arguments Evaluator : clear implicits.
Arguments Accum : clear implicits.
Arguments AllRet : clear implicits.

Abbreviation RayBatch A := (dict (option (list A))) (only parsing).

(** The views the loop hands to the evaluator, in call order. *)
Definition chunk_views {A} (ray_batch : RayBatch A) (chunk_size : nat)
  : list (RayBatch A) :=
  match n_rays ray_batch ≫= fun N => py_range 0 N chunk_size with
  | Ok starts => build_chunk ray_batch chunk_size <$> starts
  | Raise _ => []
  end.

(** An evaluator that also writes down every chunk it is called on. *)
Definition recording {A S} (ev : Evaluator A S)
  : Evaluator A (S * list (RayBatch A)) :=
  fun chunk prior st =>
    let '(r, s') := ev chunk prior st.1 in
    (r, (s', st.2 ++ [chunk])).

(** The rows of [ray_o] a chunk carries. *)
Definition rays_of {A} (chunk : RayBatch A) : list A :=
  match dict_get "ray_o" chunk with
  | Some (Some rays) => rays
  | _ => []
  end.

(** *** Reading fields of results *)

Inductive tier_name := Coarse | Fine.

Definition tier_of (t : tier_name) (r : ChunkResult) : option Tier :=
  match t with
  | Coarse => Some (ret_outputs_coarse r)
  | Fine => ret_outputs_fine r
  end.

(** The tensor a chunk result has for field [k] of tier [t]: none when the
    tier is [None], the key is missing, or the value is [None]. *)
Definition field_of (t : tier_name) (k : string) (r : ChunkResult) : option array :=
  match tier_of t r with
  | Some d => match dict_get k d with
              | Some (Some v) => Some v
              | _ => None
              end
  | None => None
  end.

(** The list accumulated so far for field [k] of tier [t]. *)
Definition acc_field {A} (t : tier_name) (k : string) (acc : Accum A)
  : option (list array) :=
  match t with
  | Coarse => dict_get k (acc_coarse acc)
  | Fine => match acc_fine acc with
            | Some d => dict_get k d
            | None => None
            end
  end.

(** Field [k] of tier [t] in what the render call returns. *)
Definition out_field {A} (t : tier_name) (k : string) (out : AllRet A)
  : option field_value :=
  match t with
  | Coarse => dict_get k (outputs_coarse out)
  | Fine => match outputs_fine out with
            | Some d => dict_get k d
            | None => None
            end
  end.

(** The same on the outcome of an evaluator call and of a render call;
    an exception has no fields. *)
Definition answered_field (t : tier_name) (k : string) (r : result ChunkResult)
  : option array :=
  match r with
  | Ok ret => field_of t k ret
  | Raise _ => None
  end.

Definition returned_field {A} (t : tier_name) (k : string)
    (r : result (AllRet A)) : option field_value :=
  match r with
  | Ok out => out_field t k out
  | Raise _ => None
  end.

(** A chunk result with a coarse tier only, whose fields are [color] and
    [depth], each a tensor with [n] rows. *)
Definition coarse_color_depth (n : nat) (ctail dtail : list nat)
    (r : ChunkResult) : Prop :=
  exists c d,
    ret_outputs_coarse r = [("color", Some c); ("depth", Some d)]
    /\ ret_outputs_fine r = None
    /\ shape c = n :: ctail
    /\ shape d = n :: dtail.

(** The tiers of a chunk result are dictionaries: no key twice. *)
Definition wf_result (r : ChunkResult) : Prop :=
  NoDup (dict_keys (ret_outputs_coarse r))
  /\ match ret_outputs_fine r with
     | Some d => NoDup (dict_keys d)
     | None => True
     end.

(** What the evaluator answers when called on the chunks of the given
    start indices one after the other. *)
Fixpoint evaluations_on {A S} (ev : Evaluator A S) (ray_batch : RayBatch A)
    (chunk_size : nat) (train_depth_prior : option (list A))
    (use_updated_prior_depth : bool) (starts : list nat) (s : S)
  : list (result ChunkResult) :=
  match starts with
  | [] => []
  | i :: rest =>
      let '(r, s') := ev (build_chunk ray_batch chunk_size i)
                        (prior_chunk train_depth_prior use_updated_prior_depth
                           chunk_size i) s in
      r :: evaluations_on ev ray_batch chunk_size train_depth_prior
             use_updated_prior_depth rest s'
  end.

(** The same over the start indices of a render call. *)
Definition evaluations {A S} (ev : Evaluator A S) (ray_batch : RayBatch A)
    (chunk_size : nat) (train_depth_prior : option (list A))
    (use_updated_prior_depth : bool) (s : S) : list (result ChunkResult) :=
  match n_rays ray_batch ≫= fun N => py_range 0 N chunk_size with
  | Ok starts => evaluations_on ev ray_batch chunk_size train_depth_prior
                   use_updated_prior_depth starts s
  | Raise _ => []
  end.

End RenderImage.

(** ** visualization.py *)

Module Visualization.

(** The per-client object of this file (its [RenderStateMachine] class). *)
Record RenderStateMachine := { client : Z; running : bool }.

Section Viewer.

(** [D] is the 3D data handed to the viewer, [Scene] what the viser
    server shows; [draw] stands for the viser calls of
    [visualize_3d_data]. *)
Context {D Scene : Type}.
Variable draw : D -> result Scene.

Record Viewer := {
  ready : bool;
  render_statemachines : gmap Z RenderStateMachine;
  current_3d_data : option D;
  scene : Scene
}.

(** A handler leaves the viewer in some state and returns or raises. *)
Definition visualize_3d_data (v : Viewer) (d : D) : result unit * Viewer :=
  let v1 := {| ready := true;
               render_statemachines := render_statemachines v;
               current_3d_data := current_3d_data v;
               scene := scene v |} in
  match draw d with
  | Ok sc => (Ok (), {| ready := true;
                        render_statemachines := render_statemachines v;
                        current_3d_data := current_3d_data v;
                        scene := sc |})
  | Raise e => (Raise e, v1)
  end.

(** [RenderStateMachine.action] with a ["move"] action. *)
Definition action_move (v : Viewer) : result unit * Viewer :=
  match current_3d_data v with
  | Some d => visualize_3d_data v d
  | None => (Raise AttributeError, v)
  end.

Definition handle_new_client (v : Viewer) (client_id : Z) : Viewer :=
  {| ready := ready v;
     render_statemachines :=
       <[client_id := {| client := client_id; running := true |}]>
         (render_statemachines v);
     current_3d_data := current_3d_data v;
     scene := scene v |}.

(** The camera handler [handle_new_client] registers for [client_id]. *)
Definition on_camera_update (v : Viewer) (client_id : Z) : result unit * Viewer :=
  if negb (ready v) then (Ok (), v)
  else match render_statemachines v !! client_id with
       | Some _ => action_move v
       | None => (Raise (KeyError (KInt client_id)), v)
       end.

Definition handle_disconnect (v : Viewer) (client_id : Z) : Viewer :=
  match render_statemachines v !! client_id with
  | Some _ => {| ready := ready v;
                 render_statemachines := delete client_id (render_statemachines v);
                 current_3d_data := current_3d_data v;
                 scene := scene v |}
  | None => v
  end.

End Viewer.

End Visualization.

(** ** Concrete inputs used below *)

Module StateMachineExamples.
Import RenderStateMachine.

(** A cloud of one point, all of whose coordinates are [z]. *)
Definition cloud (z : Z) : array := {| shape := [1; 3]; data := [z; z; z] |}.
Definition depth_of (z : Z) : array := {| shape := [1]; data := [z] |}.

Definition payload (z : Z) : gmap string array :=
  <["points" := cloud z]> (<["colors" := cloud z]> (<["depths" := depth_of z]> ∅)).

(** The output [process_render_output] builds from [payload z] at time
    [now]. *)
Definition output (z now : Z) : RenderOutput :=
  {| points := cloud z; colors := cloud z; depths := depth_of z;
     normals := None;
     metadata := Some {| timestamp := now; num_points := 1 |} |}.

Definition no_depths : gmap string array :=
  <["points" := cloud 1]> (<["colors" := cloud 1]> ∅).

Definition rendering : t := start_render init.

Definition visualizing : t :=
  {| state := VISUALIZING; current_output := Some (output 1 10);
     output_queue := [output 1 10] |}.

(** Three renders in a row, the consumer polling only at the end. *)
Definition late_consumer : list call :=
  [CallStart; CallPublish (payload 1) 10;
   CallReset; CallStart; CallPublish (payload 2) 20;
   CallReset; CallStart; CallPublish (payload 3) 30;
   CallPoll; CallPoll; CallPoll].

(** Three renders in a row from [rendering], each output polled before
    the reset that lets the next render start. *)
Definition prompt_consumer : list call :=
  [CallPublish (payload 1) 10; CallPoll;
   CallReset; CallStart; CallPublish (payload 2) 20; CallPoll;
   CallReset; CallStart; CallPublish (payload 3) 30; CallPoll].

End StateMachineExamples.

Module RenderExamples.
Import RenderImage.

(** A batch of ten rays; a row is one number. *)
Definition ten_rays : RayBatch Z :=
  [("ray_o", Some [0; 1; 2; 3; 4; 5; 6; 7; 8; 9]%Z);
   ("ray_d", Some [10; 11; 12; 13; 14; 15; 16; 17; 18; 19]%Z);
   ("camera", Some [100]%Z)].

(** An evaluator with a coarse tier only: a three-channel [color] and a
    [depth] per ray. *)
Definition color_depth : Evaluator Z unit :=
  fun chunk prior s =>
    let rays := rays_of chunk in
    (Ok {| ret_outputs_coarse :=
             [("color", Some {| shape := [length rays; 3];
                                data := rays ≫= (fun r => [r; r; r]) |});
              ("depth", Some {| shape := [length rays]; data := rays |})];
           ret_outputs_fine := None;
           ret_extra := [] |}, s).

(** A batch of three rays, rendered below in chunks of two on a grid of
    one row and three columns. *)
Definition three_rays : RayBatch Z :=
  [("ray_o", Some [0; 1; 2]%Z); ("ray_d", Some [10; 11; 12]%Z)].

Definition rgb_of (rays : list Z) : array :=
  {| shape := [length rays; 3]; data := rays ≫= (fun r => [r; r; r]) |}.

Definition per_ray (rays : list Z) : array :=
  {| shape := [length rays]; data := rays |}.

(** The chunk that starts at ray 0. *)
Definition is_first (chunk : RayBatch Z) : bool :=
  match rays_of chunk with
  | 0%Z :: _ => true
  | _ => false
  end.

Definition coarse_only (coarse : Tier) : ChunkResult :=
  {| ret_outputs_coarse := coarse; ret_outputs_fine := None; ret_extra := [] |}.

(** [rgb] and [random_sigma] on the first chunk; afterwards [rgb] is
    missing and [random_sigma] is [None]. *)
Definition drops_fields : Evaluator Z unit :=
  fun chunk prior s =>
    let rays := rays_of chunk in
    (Ok (if is_first chunk
         then coarse_only [("rgb", Some (rgb_of rays));
                           ("random_sigma", Some (per_ray rays))]
         else coarse_only [("random_sigma", None)]), s).

(** [rgb] on the first chunk; afterwards [rgb] and [depth]. *)
Definition adds_field : Evaluator Z unit :=
  fun chunk prior s =>
    let rays := rays_of chunk in
    (Ok (if is_first chunk
         then coarse_only [("rgb", Some (rgb_of rays))]
         else coarse_only [("rgb", Some (rgb_of rays));
                           ("depth", Some (per_ray rays))]), s).

(** [rgb] and [random_sigma] on every chunk. *)
Definition with_sigma : Evaluator Z unit :=
  fun chunk prior s =>
    let rays := rays_of chunk in
    (Ok (coarse_only [("rgb", Some (rgb_of rays));
                      ("random_sigma", Some (per_ray rays))]), s).

(** What the render of [three_rays] with [with_sigma] returns. *)
Definition sigma_output : AllRet Z :=
  {| outputs_coarse :=
       [("rgb", Image {| shape := [3; 3];
                         data := [0; 0; 0; 1; 1; 1; 2; 2; 2]%Z |});
        ("random_sigma", PerChunk [per_ray [0; 1]%Z; per_ray [2]%Z])];
     outputs_fine := None;
     three_d_data :=
       {| ray_origins := Merged [0; 1; 2]%Z;
          ray_directions := Merged [10; 11; 12]%Z;
          sample_points := StillEmpty; features := StillEmpty;
          colors := StillEmpty; densities := StillEmpty;
          weights := StillEmpty; z_values := StillEmpty |} |}.

(** Batches that [render_single_image] rejects. *)
Definition no_ray_o : RayBatch Z := [("ray_d", Some [10]%Z)].
Definition null_ray_o : RayBatch Z := [("ray_o", None); ("ray_d", Some [10]%Z)].
Definition no_ray_d : RayBatch Z := [("ray_o", Some [0; 1; 2]%Z)].

(** An empty batch. *)
Definition no_rays : RayBatch Z := [("ray_o", Some []); ("ray_d", Some [])].

(** A batch with a camera and a per-ray entry that is [None]. *)
Definition with_camera : RayBatch Z :=
  [("ray_o", Some [0; 1; 2]%Z); ("ray_d", Some [10; 11; 12]%Z);
   ("camera", Some [100; 101; 102]%Z); ("depth_range", None); ("mask", None)].

(** [rgb] on the first chunk; an exception of its own afterwards. *)
Definition fails_later : Evaluator Z unit :=
  fun chunk prior s =>
    if is_first chunk
    then (Ok (coarse_only [("rgb", Some (rgb_of (rays_of chunk)))]), s)
    else (Raise (Raised "out of memory"), s).

(** [rgb], and a [weights] entry that is [None], on every chunk. *)
Definition null_weights : Evaluator Z unit :=
  fun chunk prior s =>
    (Ok (coarse_only [("rgb", Some (rgb_of (rays_of chunk))); ("weights", None)]),
     s).


End RenderExamples.

Module VisualizationExamples.
Import Visualization.

(** A viewer that has drawn once, so that it is ready, with no client. *)
Definition ready_viewer : @Viewer unit unit :=
  {| ready := true; render_statemachines := ∅;
     current_3d_data := Some (); scene := () |}.

Definition draw_nothing (d : unit) : result unit := Ok ().

End VisualizationExamples.

(** ** viewer.py *)

Module PointCloudViewer.

(** The part of the [Viewer] of this file that does not sit in the viser
    server: its state machine and the flag of its visualization loop. *)
Record Viewer := {
  state_machine : RenderStateMachine.t;
  is_running : bool
}.

(** [__init__], before the loop thread has polled anything. *)
Definition init : Viewer :=
  {| state_machine := RenderStateMachine.init; is_running := true |}.

(** [update_point_cloud]: start a render, then hand the data over. *)
Definition update_point_cloud (v : Viewer) (point_cloud_data : gmap string array)
    (now : Z) : result Viewer :=
  sm ← RenderStateMachine.process_render_output
         (RenderStateMachine.start_render (state_machine v)) point_cloud_data now;
  mret {| state_machine := sm; is_running := is_running v |}.

(** What one turn of [_visualization_loop] takes from the queue. *)
Definition next_output (v : Viewer) : option RenderStateMachine.RenderOutput * Viewer :=
  let '(o, sm) := RenderStateMachine.get_next_output (state_machine v) in
  (o, {| state_machine := sm; is_running := is_running v |}).

(** [close], up to the calls on the thread and the server. *)
Definition close (v : Viewer) : Viewer :=
  {| state_machine := RenderStateMachine.reset (state_machine v);
     is_running := false |}.

End PointCloudViewer.

(* ================================================================== *)
(** * Properties *)

Module RenderStateMachineFacts.
Import RenderStateMachine.

Lemma drain_nil q : drain q = [].
Proof. induction q as [|o q IH]; [reflexivity | exact IH]. Qed.

Lemma reset_is_init sm : reset sm = init.
Proof. unfold reset, init. now rewrite drain_nil. Qed.

Lemma make_output_missing render_data now k :
  k ∈ ["points"; "colors"; "depths"] ->
  render_data !! k = None ->
  exists e, make_output render_data now = Raise e.
Proof.
  intros Hk Hnone. unfold make_output, getitem.
  destruct (render_data !! "points") as [p|] eqn:Hp; simpl; [|eauto].
  destruct (render_data !! "colors") as [c|] eqn:Hc; simpl; [|eauto].
  destruct (render_data !! "depths") as [d|] eqn:Hd; simpl; [|eauto].
  exfalso. set_unfold in Hk.
  destruct Hk as [->|[->|[->|[]]]]; congruence.
Qed.

Lemma process_in_rendering_ok sm render_data now o :
  state sm = RENDERING ->
  make_output render_data now = Ok o ->
  process_render_output sm render_data now =
    Ok {| state := VISUALIZING; current_output := Some o;
          output_queue := output_queue sm ++ [o] |}.
Proof.
  intros Hs Ho. unfold process_render_output, publish.
  rewrite decide_True by exact Hs. now rewrite Ho.
Qed.

Lemma process_in_rendering_fail sm render_data now e :
  state sm = RENDERING ->
  make_output render_data now = Raise e ->
  process_render_output sm render_data now =
    Ok {| state := ERROR; current_output := current_output sm;
          output_queue := output_queue sm |}.
Proof.
  intros Hs Ho. unfold process_render_output, publish.
  rewrite decide_True by exact Hs. now rewrite Ho.
Qed.

Lemma process_elsewhere sm render_data now :
  state sm <> RENDERING -> process_render_output sm render_data now = Ok sm.
Proof. intros Hs. unfold process_render_output. now rewrite decide_False. Qed.

(** *** Logs *)

Lemma removed_app l1 l2 : removed (l1 ++ l2) = removed l1 ++ removed l2.
Proof. apply omap_app. Qed.

Lemma published_app l1 l2 : published (l1 ++ l2) = published l1 ++ published l2.
Proof. apply omap_app. Qed.

Lemma latest_app slot l1 l2 : latest slot (l1 ++ l2) = latest (latest slot l1) l2.
Proof. apply foldl_app. Qed.

Lemma removed_Dropped q : removed (Dropped <$> q) = q.
Proof. induction q as [|o q IH]; simpl; [reflexivity | now f_equal]. Qed.

Lemma published_Dropped q : published (Dropped <$> q) = [].
Proof. induction q as [|o q IH]; simpl; [reflexivity | exact IH]. Qed.

Lemma latest_Dropped slot q : latest slot (Dropped <$> q) = slot.
Proof. induction q as [|o q IH]; simpl; [reflexivity | exact IH]. Qed.

Lemma removed_is_polled log : dropped log = [] -> removed log = polled log.
Proof.
  induction log as [|e log IH]; [reflexivity|].
  destruct e; simpl; intros Hd; try discriminate; rewrite ?IH; auto.
Qed.

(** One call keeps the queue first-in first-out and the slot current. *)
Lemma step_invariant c sm :
  removed (step c sm).2 ++ output_queue (step c sm).1
    = output_queue sm ++ published (step c sm).2
  /\ current_output (step c sm).1 = latest (current_output sm) (step c sm).2.
Proof.
  destruct c as [|render_data now| |]; simpl.
  - unfold start_render. case_decide; simpl; rewrite app_nil_r; auto.
  - destruct (decide (state sm = RENDERING)) as [Hs|Hs].
    + destruct (make_output render_data now) as [o|e] eqn:Ho.
      * rewrite (process_in_rendering_ok _ _ _ _ Hs Ho). unfold newly_queued; simpl.
        rewrite drop_app_length. simpl. auto.
      * rewrite (process_in_rendering_fail _ _ _ _ Hs Ho). unfold newly_queued; simpl.
        rewrite drop_all. simpl. rewrite app_nil_r. auto.
    + rewrite (process_elsewhere _ _ _ Hs). unfold newly_queued.
      rewrite drop_all. simpl. rewrite app_nil_r. auto.
  - unfold get_next_output. destruct (output_queue sm) as [|o q] eqn:Hq; simpl.
    + rewrite Hq. auto.
    + rewrite app_nil_r. auto.
  - rewrite removed_app, published_app, latest_app, removed_Dropped,
      published_Dropped, latest_Dropped, drain_nil. simpl.
    rewrite !app_nil_r. auto.
Qed.

Lemma run_cons c cs sm :
  run (c :: cs) sm =
    ((run cs (step c sm).1).1, (step c sm).2 ++ (run cs (step c sm).1).2).
Proof.
  simpl. destruct (step c sm) as [sm1 ev1]. simpl.
  now destruct (run cs sm1) as [sm2 ev2].
Qed.

Lemma run_invariant cs : forall sm,
  removed (run cs sm).2 ++ output_queue (run cs sm).1
    = output_queue sm ++ published (run cs sm).2
  /\ current_output (run cs sm).1 = latest (current_output sm) (run cs sm).2.
Proof.
  induction cs as [|c cs IH]; intros sm.
  - simpl. rewrite app_nil_r. auto.
  - rewrite run_cons. cbn [fst snd].
    destruct (step_invariant c sm) as [Hq Hs].
    destruct (IH (step c sm).1) as [Hq' Hs'].
    rewrite removed_app, published_app, latest_app. split.
    + rewrite <- app_assoc, Hq', app_assoc, Hq, app_assoc. reflexivity.
    + rewrite Hs', Hs. reflexivity.
Qed.


(** C6 fails as stated: three outputs published in order, each from
    [RENDERING], and a consumer that polls afterwards sees only the last
    one, because the resets that let the second and third render start
    throw the queued outputs away. *)
Lemma late_consumer_misses_outputs :
  published (run StateMachineExamples.late_consumer init).2
    = [StateMachineExamples.output 1 10; StateMachineExamples.output 2 20;
       StateMachineExamples.output 3 30]
  /\ output_queue (run StateMachineExamples.late_consumer init).1 = []
  /\ polled (run StateMachineExamples.late_consumer init).2
       = [StateMachineExamples.output 3 30]
  /\ polled (run StateMachineExamples.late_consumer init).2
       <> published (run StateMachineExamples.late_consumer init).2.
Proof. vm_compute. repeat split; try reflexivity. discriminate. Qed.

(** C6, amended: over any schedule of calls on one machine, the outputs
    leave the queue in the order they entered it, a poll handing over the
    oldest one and a reset throwing away all that are queued; so the polled
    outputs are the published ones in publish order as long as no reset
    found an output still queued.  The slot holds the output of the last
    publish since the last reset, whatever was polled, and a publish from
    [RENDERING] with a well-formed payload queues the output and puts it
    in the slot. *)
Theorem poll_order_up_to_reset (cs : list call) (sm : t) :
  removed (run cs sm).2 ++ output_queue (run cs sm).1
    = output_queue sm ++ published (run cs sm).2
  /\ get_latest_output (run cs sm).1 = latest (current_output sm) (run cs sm).2
  /\ (dropped (run cs sm).2 = [] ->
      polled (run cs sm).2 ++ output_queue (run cs sm).1
        = output_queue sm ++ published (run cs sm).2)
  /\ (forall render_data now o,
        state sm = RENDERING ->
        make_output render_data now = Ok o ->
        step (CallPublish render_data now) sm
          = ({| state := VISUALIZING; current_output := Some o;
                output_queue := output_queue sm ++ [o] |}, [Published o]))
  /\ get_latest_output (get_next_output sm).2 = get_latest_output sm.
Proof.
  destruct (run_invariant cs sm) as [Hq Hs].
  split; [exact Hq|]. split; [exact Hs|]. split; [|split].
  - intros Hd. rewrite <- (removed_is_polled _ Hd). exact Hq.
  - intros render_data now o Hst Ho. simpl.
    rewrite (process_in_rendering_ok _ _ _ _ Hst Ho).
    unfold newly_queued; simpl. now rewrite drop_app_length.
  - unfold get_next_output. now destruct (output_queue sm).
Qed.

Lemma poll_order_up_to_reset_witness :
  polled (run StateMachineExamples.prompt_consumer StateMachineExamples.rendering).2
    = [StateMachineExamples.output 1 10; StateMachineExamples.output 2 20;
       StateMachineExamples.output 3 30]
  /\ step (CallPublish (StateMachineExamples.payload 1) 10)
          StateMachineExamples.rendering
     = ({| state := VISUALIZING;
           current_output := Some (StateMachineExamples.output 1 10);
           output_queue := [StateMachineExamples.output 1 10] |},
        [Published (StateMachineExamples.output 1 10)]).
Proof.
  destruct (poll_order_up_to_reset StateMachineExamples.prompt_consumer
              StateMachineExamples.rendering) as (_ & _ & Hpolled & Hpub & _).
  split.
  - assert (Hd : dropped (run StateMachineExamples.prompt_consumer
                            StateMachineExamples.rendering).2 = [])
      by (vm_compute; reflexivity).
    specialize (Hpolled Hd). revert Hpolled. vm_compute. intros H; exact H.
  - apply (Hpub (StateMachineExamples.payload 1) 10%Z
             (StateMachineExamples.output 1 10)); vm_compute; reflexivity.
Defined.

(** C7: [start_render] outside [IDLE] and [process_render_output] outside
    [RENDERING] change nothing: the machine (state, slot and queue) is the
    one before the call. *)
Theorem wrong_state_is_noop (sm : t) (render_data : gmap string array) (now : Z) :
  (state sm <> IDLE -> start_render sm = sm)
  /\ (state sm <> RENDERING -> process_render_output sm render_data now = Ok sm).
Proof.
  split; intros Hs.
  - unfold start_render. now rewrite decide_False.
  - now apply process_elsewhere.
Qed.

Lemma wrong_state_is_noop_witness :
  start_render StateMachineExamples.visualizing = StateMachineExamples.visualizing
  /\ process_render_output StateMachineExamples.visualizing
       (StateMachineExamples.payload 2) 20 = Ok StateMachineExamples.visualizing.
Proof.
  destruct (wrong_state_is_noop StateMachineExamples.visualizing
              (StateMachineExamples.payload 2) 20%Z) as [H1 H2].
  split; [apply H1 | apply H2]; simpl; discriminate.
Defined.

(** C8: [reset] from any state gives the machine [IDLE] with an empty
    slot and an empty queue, and a second [reset] changes nothing. *)
Theorem reset_idle_and_idempotent (sm : t) :
  state (reset sm) = IDLE
  /\ get_latest_output (reset sm) = None
  /\ output_queue (reset sm) = []
  /\ reset (reset sm) = reset sm.
Proof.
  rewrite !reset_is_init. repeat split.
Qed.

(** C10: a publish from [RENDERING] whose payload lacks one of [points],
    [colors], [depths] returns normally, leaves the machine in [ERROR], and
    leaves the slot and the queue as they were. *)
Theorem failed_publish_is_atomic (sm : t) (render_data : gmap string array)
    (now : Z) (k : string) :
  state sm = RENDERING ->
  k ∈ ["points"; "colors"; "depths"] ->
  render_data !! k = None ->
  exists sm',
    process_render_output sm render_data now = Ok sm'
    /\ state sm' = ERROR
    /\ get_latest_output sm' = get_latest_output sm
    /\ output_queue sm' = output_queue sm.
Proof.
  intros Hs Hk Hnone.
  destruct (make_output_missing render_data now k Hk Hnone) as [e He].
  rewrite (process_in_rendering_fail _ _ _ _ Hs He).
  eexists. split; [reflexivity|]. repeat split.
Qed.

Lemma failed_publish_is_atomic_witness :
  exists sm',
    process_render_output StateMachineExamples.rendering
      StateMachineExamples.no_depths 10 = Ok sm'
    /\ state sm' = ERROR
    /\ get_latest_output sm' = get_latest_output StateMachineExamples.rendering
    /\ output_queue sm' = output_queue StateMachineExamples.rendering.
Proof.
  apply (failed_publish_is_atomic StateMachineExamples.rendering
           StateMachineExamples.no_depths 10%Z "depths").
  - reflexivity.
  - set_solver.
  - vm_compute. reflexivity.
Defined.

End RenderStateMachineFacts.

Module RenderImageFacts.
Import RenderImage.

(** *** Ranges and slices *)

Lemma py_slice_window {X} (i c : nat) (l : list X) :
  py_slice i (i + c) l = take c (drop i l).
Proof. unfold py_slice. f_equal. lia. Qed.

Lemma py_range_from_zero (N c : nat) :
  1 <= N -> 1 <= c ->
  py_range 0 N c = Ok ((fun k => k * c) <$> seq 0 ((N - 1) `div` c + 1)).
Proof.
  intros HN Hc. unfold py_range.
  rewrite decide_False by lia. rewrite decide_True by lia.
  replace (N - 0 - 1) with (N - 1) by lia. reflexivity.
Qed.

(** Enough windows of width [c], laid end to end, give the list back. *)
Lemma concat_windows {X} (c m : nat) : forall l : list X,
  length l <= m * c ->
  concat ((fun k => take c (drop (k * c) l)) <$> seq 0 m) = l.
Proof.
  induction m as [|m IH]; intros l Hl.
  - simpl in *. destruct l; [reflexivity | simpl in Hl; lia].
  - cbn [seq fmap list_fmap concat]. rewrite <- fmap_S_seq, <- list_fmap_compose.
    simpl. transitivity (take c l ++ drop c l); [|apply take_drop].
    f_equal.
    etransitivity; [|apply (IH (drop c l)); rewrite length_drop; lia].
    f_equal. apply list_fmap_ext. intros _ k _. simpl.
    now rewrite drop_drop.
Qed.

Lemma windows_cover (N c : nat) :
  1 <= N -> 1 <= c -> N <= ((N - 1) `div` c + 1) * c.
Proof.
  intros HN Hc. pose proof (Nat.div_mod (N - 1) c ltac:(lia)) as Hdm.
  pose proof (Nat.mod_upper_bound (N - 1) c ltac:(lia)). nia.
Qed.

Lemma window_starts_inside (N c j : nat) :
  1 <= N -> 1 <= c -> j < (N - 1) `div` c + 1 -> j * c < N.
Proof.
  intros HN Hc Hj. pose proof (Nat.div_mod (N - 1) c ltac:(lia)) as Hdm.
  pose proof (Nat.mod_upper_bound (N - 1) c ltac:(lia)).
  assert (j <= (N - 1) `div` c) by lia. nia.
Qed.

Lemma inner_window_full (N c j : nat) :
  1 <= N -> 1 <= c -> S j < (N - 1) `div` c + 1 -> j * c + c <= N.
Proof.
  intros HN Hc Hj. pose proof (Nat.div_mod (N - 1) c ltac:(lia)) as Hdm.
  pose proof (Nat.mod_upper_bound (N - 1) c ltac:(lia)).
  assert (S j <= (N - 1) `div` c) by lia. nia.
Qed.

(** *** Chunks of a batch *)

Section Chunking.
Context {A : Type}.
Implicit Types (ray_batch : RayBatch A) (rays : list A).

Lemma dict_get_build_chunk ray_batch c i k :
  k ∉ shared_keys ->
  dict_get k (build_chunk ray_batch c i)
    = match dict_get k ray_batch with
      | Some v => Some (py_slice i (i + c) <$> v)
      | None => None
      end.
Proof.
  intros Hk. induction ray_batch as [|[k' v] d IH]; [reflexivity|].
  cbn [build_chunk fmap list_fmap fst snd]. fold (build_chunk d c i).
  case_bool_decide as Hshared; simpl.
  - destruct (decide (k' = k)) as [->|]; [contradiction | exact IH].
  - destruct (decide (k' = k)); [reflexivity | exact IH].
Qed.

Lemma rays_of_build_chunk ray_batch rays c i :
  dict_get "ray_o" ray_batch = Some (Some rays) ->
  rays_of (build_chunk ray_batch c i) = take c (drop i rays).
Proof.
  intros Hro. unfold rays_of.
  rewrite dict_get_build_chunk by (by apply (bool_decide_unpack _)).
  rewrite Hro. simpl. apply py_slice_window.
Qed.

Lemma chunk_views_unfold ray_batch rays c :
  dict_get "ray_o" ray_batch = Some (Some rays) ->
  1 <= length rays -> 1 <= c ->
  chunk_views ray_batch c
    = (fun j => build_chunk ray_batch c (j * c))
        <$> seq 0 ((length rays - 1) `div` c + 1).
Proof.
  intros Hro HN Hc. unfold chunk_views, n_rays, dict_getitem. rewrite Hro. simpl.
  rewrite py_range_from_zero by assumption.
  now rewrite <- list_fmap_compose.
Qed.

End Chunking.

(** *** The calls the loop makes *)

Section Calls.
Context {A St : Type}.
Variable ev : Evaluator A St.
Variable ray_batch : RayBatch A.
Variable chunk_size : nat.
Variable train_depth_prior : option (list A).
Variable use_updated_prior_depth : bool.

Lemma recording_unfold chunk prior (s : St) log :
  recording ev chunk prior (s, log)
    = ((ev chunk prior s).1, ((ev chunk prior s).2, log ++ [chunk])).
Proof. unfold recording. simpl. now destruct (ev chunk prior s). Qed.

(** The recording evaluator's log grows by the views of the start indices
    the loop reaches, in order; it has them all when the loop ends
    normally. *)
Lemma render_chunks_log (starts : list nat) : forall acc s log,
  exists n,
    (render_chunks (recording ev) ray_batch chunk_size train_depth_prior
       use_updated_prior_depth starts acc (s, log)).2.2
      = log ++ (build_chunk ray_batch chunk_size <$> take n starts)
    /\ (is_ok (render_chunks (recording ev) ray_batch chunk_size train_depth_prior
                 use_updated_prior_depth starts acc (s, log)).1 = true ->
        n = length starts).
Proof.
  induction starts as [|i rest IH]; intros acc s log.
  - exists 0. simpl. rewrite app_nil_r. auto.
  - cbn [render_chunks]. unfold chunk_step.
    destruct (store_rays (build_chunk ray_batch chunk_size i) acc) as [acc1|e].
    2:{ exists 0. simpl. rewrite app_nil_r. split; [reflexivity | discriminate]. }
    rewrite recording_unfold.
    destruct (ev _ _ s) as [[ret|e] s']; cbn [fst snd].
    2:{ exists 1. simpl. split; [reflexivity | discriminate]. }
    destruct (accumulate i ret acc1) as [acc2|e].
    2:{ exists 1. simpl. split; [reflexivity | discriminate]. }
    destruct (IH acc2 s' (log ++ [build_chunk ray_batch chunk_size i])) as (n & Hlog & Hok).
    exists (S n). split.
    + rewrite Hlog, <- app_assoc. reflexivity.
    + intros H. simpl. f_equal. now apply Hok.
Qed.

Lemma render_loop_log (s : St) :
  exists n,
    (render_loop (recording ev) ray_batch chunk_size train_depth_prior
       use_updated_prior_depth (s, [])).2.2
      = take n (chunk_views ray_batch chunk_size)
    /\ (is_ok (render_loop (recording ev) ray_batch chunk_size train_depth_prior
                 use_updated_prior_depth (s, [])).1 = true ->
        (render_loop (recording ev) ray_batch chunk_size train_depth_prior
           use_updated_prior_depth (s, [])).2.2
          = chunk_views ray_batch chunk_size).
Proof.
  unfold render_loop, chunk_views.
  destruct (n_rays ray_batch) as [N|e]; simpl.
  2:{ exists 0. split; [reflexivity | discriminate]. }
  destruct (py_range 0 N chunk_size) as [starts|e]; simpl.
  2:{ exists 0. split; [reflexivity | discriminate]. }
  destruct (render_chunks_log starts initial s []) as (n & Hlog & Hok).
  exists n. rewrite Hlog. simpl. split.
  - now rewrite fmap_take.
  - intros H. rewrite (Hok H). now rewrite firstn_all.
Qed.

Lemma render_single_image_state (H W render_stride : nat) (s : St * list (list (string * option (list A)))) :
  (render_single_image (recording ev) H W ray_batch chunk_size render_stride
     train_depth_prior use_updated_prior_depth s).2
    = (render_loop (recording ev) ray_batch chunk_size train_depth_prior
         use_updated_prior_depth s).2
  /\ (is_ok (render_single_image (recording ev) H W ray_batch chunk_size
               render_stride train_depth_prior use_updated_prior_depth s).1 = true ->
      is_ok (render_loop (recording ev) ray_batch chunk_size train_depth_prior
               use_updated_prior_depth s).1 = true).
Proof.
  unfold render_single_image.
  destruct (render_loop _ _ _ _ _ _) as [[acc|e] s']; simpl; auto.
Qed.

End Calls.

(** C1: for a batch of [N >= 1] rays and [chunk_size >= 1], the views the
    loop builds cut the rays into consecutive windows: laid end to end
    they are the batch, in order; view [j] holds the rays of indices
    [j * chunk_size] up to [min ((j + 1) * chunk_size) N], at least one and
    at most [chunk_size] of them, exactly [chunk_size] for every view but
    the last; and the evaluator is called on these views in this order,
    on all of them when the render call returns. *)
Theorem chunks_partition_the_batch {A : Type}
    (ray_batch : RayBatch A) (rays : list A) (chunk_size : nat) :
  dict_get "ray_o" ray_batch = Some (Some rays) ->
  1 <= length rays ->
  1 <= chunk_size ->
  concat (rays_of <$> chunk_views ray_batch chunk_size) = rays
  /\ (forall j v, chunk_views ray_batch chunk_size !! j = Some v ->
        rays_of v = take chunk_size (drop (j * chunk_size) rays)
        /\ length (rays_of v) = chunk_size `min` (length rays - j * chunk_size)
        /\ 1 <= length (rays_of v) <= chunk_size)
  /\ (forall j v, chunk_views ray_batch chunk_size !! j = Some v ->
        S j < length (chunk_views ray_batch chunk_size) ->
        length (rays_of v) = chunk_size)
  /\ (forall (St : Type) (ev : Evaluator A St) H W render_stride
             train_depth_prior use_updated_prior_depth (s : St),
        let r := render_single_image (recording ev) H W ray_batch chunk_size
                   render_stride train_depth_prior use_updated_prior_depth (s, []) in
        r.2.2 `prefix_of` chunk_views ray_batch chunk_size
        /\ (is_ok r.1 = true -> r.2.2 = chunk_views ray_batch chunk_size)).
Proof.
  intros Hro HN Hc.
  rewrite (chunk_views_unfold _ _ _ Hro HN Hc).
  set (m := (length rays - 1) `div` chunk_size + 1).
  assert (Hview : forall j v,
    ((fun j => build_chunk ray_batch chunk_size (j * chunk_size)) <$> seq 0 m) !! j
      = Some v ->
    j < m /\ rays_of v = take chunk_size (drop (j * chunk_size) rays)).
  { intros j v Hj. rewrite list_lookup_fmap in Hj.
    destruct (seq 0 m !! j) as [j'|] eqn:Hseq; [|discriminate].
    apply lookup_seq in Hseq as [-> Hlt]. simpl in Hj.
    injection Hj as <-. split; [exact Hlt|].
    now apply rays_of_build_chunk. }
  split; [|split; [|split]].
  - rewrite <- list_fmap_compose.
    erewrite list_fmap_ext; [apply (concat_windows chunk_size m)|].
    + now apply windows_cover.
    + intros _ j _. simpl. now apply rays_of_build_chunk.
  - intros j v Hj. destruct (Hview j v Hj) as [Hlt ->].
    pose proof (window_starts_inside _ _ _ HN Hc Hlt).
    rewrite length_take, length_drop. split; [reflexivity|]. split; lia.
  - intros j v Hj Hlen. destruct (Hview j v Hj) as [_ ->].
    rewrite length_fmap, length_seq in Hlen.
    pose proof (inner_window_full _ _ _ HN Hc Hlen).
    rewrite length_take, length_drop. lia.
  - intros St ev H W render_stride train_depth_prior use_updated_prior_depth s r.
    subst m. rewrite <- (chunk_views_unfold _ _ _ Hro HN Hc).
    destruct (render_single_image_state ev ray_batch chunk_size train_depth_prior
                use_updated_prior_depth H W render_stride (s, [])) as [Hst Hok].
    destruct (render_loop_log ev ray_batch chunk_size train_depth_prior
                use_updated_prior_depth s) as (n & Hlog & Hall).
    subst r. rewrite Hst. split.
    + rewrite Hlog. apply prefix_take.
    + intros Hr. apply Hall, Hok, Hr.
Qed.

Lemma chunks_partition_the_batch_witness :
  concat (rays_of <$> chunk_views RenderExamples.ten_rays 4)
    = [0; 1; 2; 3; 4; 5; 6; 7; 8; 9]%Z
  /\ (render_single_image (recording RenderExamples.color_depth) 2 5
        RenderExamples.ten_rays 4 1 None false ((), [])).2.2
     = chunk_views RenderExamples.ten_rays 4.
Proof.
  destruct (chunks_partition_the_batch RenderExamples.ten_rays
              [0; 1; 2; 3; 4; 5; 6; 7; 8; 9]%Z 4) as (Hcat & _ & _ & Hcalls).
  - reflexivity.
  - simpl. lia.
  - lia.
  - split; [exact Hcat|].
    apply (Hcalls unit RenderExamples.color_depth 2 5 1 None false ()).
    vm_compute. reflexivity.
Defined.

End RenderImageFacts.

Module AggregationFacts.
Import RenderImage.

(** *** Dictionaries *)

Section Dicts.
Context {V : Type}.
Implicit Types (d : dict V) (k : string).

Lemma dict_get_set_eq k (v : V) d : dict_get k (dict_set k v d) = Some v.
Proof.
  induction d as [|[k' v'] d IH]; simpl.
  - now rewrite decide_True.
  - destruct (decide (k' = k)) as [->|Hne]; simpl.
    + now rewrite decide_True.
    + now rewrite decide_False.
Qed.

Lemma dict_get_set_ne k k' (v : V) d :
  k <> k' -> dict_get k' (dict_set k v d) = dict_get k' d.
Proof.
  intros Hne. induction d as [|[k1 v1] d IH]; simpl.
  - now rewrite decide_False.
  - destruct (decide (k1 = k)) as [->|Hne1]; simpl.
    + now rewrite !decide_False.
    + destruct (decide (k1 = k')); [reflexivity | exact IH].
Qed.

Lemma dict_get_set k k' (v : V) d :
  dict_get k' (dict_set k v d) = if decide (k = k') then Some v else dict_get k' d.
Proof.
  case_decide as H; [subst; apply dict_get_set_eq | now apply dict_get_set_ne].
Qed.

Lemma dict_get_None_keys k d : dict_get k d = None <-> k ∉ dict_keys d.
Proof.
  unfold dict_keys. induction d as [|[k' v'] d IH]; simpl.
  - split; [intros _; apply not_elem_of_nil | reflexivity].
  - rewrite not_elem_of_cons. destruct (decide (k' = k)) as [->|Hne].
    + split; [discriminate | intros [[] _]; reflexivity].
    + rewrite IH. split; [intros H; split; [congruence | exact H] | intros [_ H]; exact H].
Qed.

End Dicts.

(** The visits of a tier are its fields that are present and not [None]. *)
Lemma dict_get_nonnull_aux {V} (d0 : dict (option V)) k (ks : list string) :
  dict_get k (omap (fun k => match dict_get k d0 with
                             | Some (Some v) => Some (k, v)
                             | _ => None
                             end) ks)
    = if decide (k ∈ ks)
      then match dict_get k d0 with Some (Some v) => Some v | _ => None end
      else None.
Proof.
  induction ks as [|k' ks IH].
  - reflexivity.
  - cbn [omap list_omap].
    destruct (decide (k' = k)) as [->|Hne].
    + rewrite (decide_True (P := k ∈ k :: ks)) by apply list_elem_of_here.
      destruct (dict_get k d0) as [[v|]|] eqn:Hk; simpl.
      * now rewrite decide_True.
      * rewrite IH. now destruct (decide (k ∈ ks)).
      * rewrite IH. now destruct (decide (k ∈ ks)).
    + assert (Hiff : k ∈ k' :: ks <-> k ∈ ks).
      { rewrite elem_of_cons. split; [intros [->|H]; [congruence | exact H] | auto]. }
      rewrite (decide_ext _ _ _ _ Hiff).
      destruct (dict_get k' d0) as [[v1|]|]; simpl; try exact IH.
      now rewrite decide_False.
Qed.

Lemma dict_get_nonnull {V} (d : dict (option V)) k :
  dict_get k (nonnull d)
    = match dict_get k d with Some (Some v) => Some v | _ => None end.
Proof.
  unfold nonnull. rewrite dict_get_nonnull_aux. fold (nonnull d).
  destruct (decide (k ∈ dict_keys d)) as [Hin|Hnin]; [reflexivity|].
  now rewrite (proj2 (dict_get_None_keys k d) Hnin).
Qed.

Lemma nonnull_keys_NoDup {V} (d : dict (option V)) :
  NoDup (dict_keys d) -> NoDup (dict_keys (nonnull d)).
Proof.
  unfold nonnull. generalize (dict_keys d) as ks. intros ks Hnd.
  induction Hnd as [|k ks Hnin Hnd IH]; [constructor|].
  cbn [omap list_omap]. destruct (dict_get k d) as [[v|]|]; simpl; auto.
  constructor; [|exact IH].
  apply dict_get_None_keys. rewrite dict_get_nonnull_aux.
  now rewrite decide_False.
Qed.

(** *** Appending one chunk to the accumulated lists *)

(** When every visited key has a list, each list gets the value of its
    key, and the other lists stay. *)
Lemma append_all_spec (items : list (string * array)) : forall all,
  NoDup (dict_keys items) ->
  (forall k v, dict_get k items = Some v -> is_Some (dict_get k all)) ->
  exists all',
    append_all items all = Ok all'
    /\ forall k, dict_get k all'
                = (fun l => l ++ option_list (dict_get k items)) <$> dict_get k all.
Proof.
  induction items as [|[k0 v0] rest IH]; intros all Hnd Hin.
  - exists all. split; [reflexivity|]. intros k. simpl.
    destruct (dict_get k all); simpl; [now rewrite app_nil_r | reflexivity].
  - apply NoDup_cons in Hnd as [Hk0 Hnd].
    destruct (Hin k0 v0) as [l Hl]; [simpl; now rewrite decide_True|].
    cbn [append_all]. unfold dict_append, dict_getitem. rewrite Hl. simpl.
    destruct (IH (dict_set k0 (l ++ [v0]) all) Hnd) as (all' & Happ & Hget).
    { intros k v Hk. rewrite dict_get_set.
      destruct (decide (k0 = k)) as [->|Hne]; [eauto|].
      apply (Hin k v). simpl. now rewrite decide_False. }
    exists all'. split; [exact Happ|]. intros k. rewrite Hget, dict_get_set. simpl.
    destruct (decide (k0 = k)) as [->|Hne].
    + rewrite Hl. simpl.
      rewrite (proj2 (dict_get_None_keys k rest) Hk0). simpl.
      now rewrite app_nil_r.
    + reflexivity.
Qed.

(** A visited key without a list makes the loop raise. *)
Lemma append_all_fail (items : list (string * array)) : forall all k v,
  dict_get k items = Some v ->
  dict_get k all = None ->
  exists e, append_all items all = Raise e.
Proof.
  induction items as [|[k0 v0] rest IH]; intros all k v Hk Hnone; [discriminate|].
  cbn [append_all]. unfold dict_append, dict_getitem.
  destruct (dict_get k0 all) as [l|] eqn:Hl; simpl; [|eauto].
  simpl in Hk. destruct (decide (k0 = k)) as [->|Hne]; [congruence|].
  apply (IH _ k v Hk). now rewrite dict_get_set_ne.
Qed.

(** Appending creates no list. *)
Lemma append_all_absent (items : list (string * array)) : forall all all' k,
  append_all items all = Ok all' ->
  dict_get k all = None ->
  dict_get k all' = None.
Proof.
  induction items as [|[k0 v0] rest IH]; intros all all' k Happ Hnone.
  - simpl in Happ. congruence.
  - cbn [append_all] in Happ. unfold dict_append, dict_getitem in Happ.
    destruct (dict_get k0 all) as [l|] eqn:Hl; simpl in Happ; [|discriminate].
    apply (IH _ _ k Happ). rewrite dict_get_set.
    destruct (decide (k0 = k)) as [->|]; [congruence | exact Hnone].
Qed.

Lemma discover_items_spec (items : list (string * array)) :
  forall (all : dict (list array)) k,
  dict_get k (foldl (fun d kv => dict_set kv.1 [] d) all items)
    = match dict_get k items with
      | Some _ => Some []
      | None => dict_get k all
      end.
Proof.
  induction items as [|[k0 v0] rest IH]; intros all k; [reflexivity|].
  simpl. rewrite IH, dict_get_set.
  destruct (dict_get k rest); now destruct (decide (k0 = k)).
Qed.

(** The schema of a tier: an empty list for each field that is present
    and not [None]. *)
Lemma discover_spec (tier : Tier) all k :
  dict_get k (discover tier all)
    = match dict_get k (nonnull tier) with
      | Some _ => Some []
      | None => dict_get k all
      end.
Proof. apply discover_items_spec. Qed.

(** *** One chunk *)

Lemma field_of_nonnull t k ret tier :
  tier_of t ret = Some tier -> field_of t k ret = dict_get k (nonnull tier).
Proof. intros H. unfold field_of. rewrite H. now rewrite dict_get_nonnull. Qed.

Lemma field_of_no_tier t k ret : tier_of t ret = None -> field_of t k ret = None.
Proof. intros H. unfold field_of. now rewrite H. Qed.

Lemma fmap_app_nil {X} (o : option (list X)) : (fun l => l ++ []) <$> o = o.
Proof. destruct o; simpl; [now rewrite app_nil_r | reflexivity]. Qed.

Section OneChunk.
Context {A : Type}.
Implicit Types (acc : Accum A) (ret : ChunkResult).

Lemma accumulate_later i ret acc :
  i <> 0 ->
  accumulate i ret acc
    = (coarse ← append_all (nonnull (ret_outputs_coarse ret)) (acc_coarse acc);
       fine ← match ret_outputs_fine ret with
              | Some tier => on_fine append_all tier (acc_fine acc)
              | None => Ok (acc_fine acc)
              end;
       mret {| acc_coarse := coarse; acc_fine := fine;
               acc_three_d := store_samples ret (acc_three_d acc) |}).
Proof. intros Hi. unfold accumulate. now rewrite decide_False. Qed.

(** A later chunk whose fields all have a list: each list gets the value
    of the chunk if the chunk has one, and nothing otherwise. *)
Lemma accumulate_later_ok i ret acc :
  i <> 0 ->
  wf_result ret ->
  (forall t k v, field_of t k ret = Some v -> is_Some (acc_field t k acc)) ->
  exists acc',
    accumulate i ret acc = Ok acc'
    /\ (forall t k, acc_field t k acc'
                   = (fun l => l ++ option_list (field_of t k ret)) <$> acc_field t k acc)
    /\ (acc_fine acc' = None <-> acc_fine acc = None).
Proof.
  intros Hi [Hwfc Hwff] Hin. rewrite accumulate_later by exact Hi.
  destruct (append_all_spec (nonnull (ret_outputs_coarse ret)) (acc_coarse acc))
    as (coarse & Hc & Hcget).
  { now apply nonnull_keys_NoDup. }
  { intros k v Hk. apply (Hin Coarse k v).
    now rewrite (field_of_nonnull Coarse k ret _ eq_refl). }
  rewrite Hc. simpl.
  destruct (ret_outputs_fine ret) as [tier|] eqn:Hfine.
  - destruct (acc_fine acc) as [d|] eqn:Hd; simpl.
    + destruct (append_all_spec (nonnull tier) d) as (fine & Hf & Hfget).
      { now apply nonnull_keys_NoDup. }
      { intros k v Hk. specialize (Hin Fine k v).
        rewrite (field_of_nonnull Fine k ret tier Hfine) in Hin.
        unfold acc_field in Hin. rewrite Hd in Hin. auto. }
      rewrite Hf. simpl. eexists. split; [reflexivity|].
      split; [|simpl; rewrite ?Hd; split; intros; (discriminate || reflexivity)].
      intros [] k; unfold acc_field; simpl.
      * rewrite Hcget. now rewrite (field_of_nonnull Coarse k ret _ eq_refl).
      * rewrite Hd, Hfget. now rewrite (field_of_nonnull Fine k ret tier Hfine).
    + destruct (nonnull tier) as [|[k0 v0] rest] eqn:Hnn.
      * eexists. split; [reflexivity|].
        split; [|simpl; rewrite ?Hd; split; intros; (discriminate || reflexivity)].
        intros [] k; unfold acc_field; simpl.
        -- rewrite Hcget. now rewrite (field_of_nonnull Coarse k ret _ eq_refl).
        -- now rewrite Hd.
      * exfalso. specialize (Hin Fine k0 v0).
        rewrite (field_of_nonnull Fine k0 ret tier Hfine), Hnn in Hin.
        unfold acc_field in Hin. rewrite Hd in Hin. simpl in Hin.
        rewrite decide_True in Hin by reflexivity.
        destruct (Hin eq_refl) as [? ?]. discriminate.
  - simpl. eexists. split; [reflexivity|].
    split; [|simpl; tauto].
    intros [] k; unfold acc_field; simpl.
    + rewrite Hcget. now rewrite (field_of_nonnull Coarse k ret _ eq_refl).
    + rewrite (field_of_no_tier Fine k ret Hfine). simpl.
      now rewrite fmap_app_nil.
Qed.

(** A later chunk with a field that has no list: the loop raises. *)
Lemma accumulate_later_fail i ret acc t k v :
  i <> 0 ->
  field_of t k ret = Some v ->
  acc_field t k acc = None ->
  exists e, accumulate i ret acc = Raise e.
Proof.
  intros Hi Hf Hnone. rewrite accumulate_later by exact Hi.
  destruct t.
  - rewrite (field_of_nonnull Coarse k ret _ eq_refl) in Hf.
    destruct (append_all_fail _ _ k v Hf Hnone) as [e He].
    rewrite He. simpl. eauto.
  - destruct (append_all _ (acc_coarse acc)) as [coarse|e]; simpl; [|eauto].
    destruct (ret_outputs_fine ret) as [tier|] eqn:Hfine;
      [|rewrite (field_of_no_tier Fine k ret Hfine) in Hf; discriminate].
    rewrite (field_of_nonnull Fine k ret tier Hfine) in Hf.
    unfold acc_field in Hnone. unfold on_fine.
    destruct (acc_fine acc) as [d|].
    + destruct (append_all_fail _ _ k v Hf Hnone) as [e He].
      rewrite He. simpl. eauto.
    + destruct (nonnull tier); [discriminate|]. simpl. eauto.
Qed.

(** A later chunk creates no list. *)
Lemma accumulate_later_absent i ret acc acc' t k :
  i <> 0 ->
  accumulate i ret acc = Ok acc' ->
  acc_field t k acc = None ->
  acc_field t k acc' = None.
Proof.
  intros Hi Hacc Hnone. rewrite accumulate_later in Hacc by exact Hi.
  destruct (append_all _ (acc_coarse acc)) as [coarse|e] eqn:Hc; simpl in Hacc;
    [|discriminate].
  destruct (ret_outputs_fine ret) as [tier|].
  - unfold on_fine in Hacc. destruct (acc_fine acc) as [d|] eqn:Hd.
    + destruct (append_all (nonnull tier) d) as [fine|e] eqn:Hf; simpl in Hacc;
        [|discriminate].
      injection Hacc as <-. destruct t; unfold acc_field in *; simpl.
      * exact (append_all_absent _ _ _ k Hc Hnone).
      * rewrite Hd in Hnone. exact (append_all_absent _ _ _ k Hf Hnone).
    + destruct (nonnull tier); simpl in Hacc; [|discriminate].
      injection Hacc as <-. destruct t; unfold acc_field in *; simpl.
      * exact (append_all_absent _ _ _ k Hc Hnone).
      * reflexivity.
  - simpl in Hacc. injection Hacc as <-.
    destruct t; unfold acc_field in *; simpl.
    + exact (append_all_absent _ _ _ k Hc Hnone).
    + exact Hnone.
Qed.

(** The first chunk, on the fresh dictionaries: one list per field that
    is present and not [None], holding the value of the chunk. *)
Lemma accumulate_first ret acc :
  acc_coarse acc = [] ->
  acc_fine acc = Some [] ->
  wf_result ret ->
  exists acc',
    accumulate 0 ret acc = Ok acc'
    /\ (forall t k, acc_field t k acc' = (fun v => [v]) <$> field_of t k ret)
    /\ (acc_fine acc' = None <-> ret_outputs_fine ret = None).
Proof.
  intros Hcoarse Hfine [Hwfc Hwff]. unfold accumulate, first_chunk.
  rewrite decide_True by reflexivity. rewrite Hcoarse, Hfine.
  destruct (append_all_spec (nonnull (ret_outputs_coarse ret))
              (discover (ret_outputs_coarse ret) [])) as (coarse & Hc & Hcget).
  { now apply nonnull_keys_NoDup. }
  { intros k v Hk. rewrite discover_spec, Hk. eauto. }
  assert (Hcfield : forall k,
    dict_get k coarse = (fun v => [v]) <$> field_of Coarse k ret).
  { intros k. rewrite Hcget, discover_spec.
    rewrite (field_of_nonnull Coarse k ret _ eq_refl).
    now destruct (dict_get k (nonnull (ret_outputs_coarse ret))). }
  destruct (ret_outputs_fine ret) as [tier|] eqn:Hrf; simpl.
  - rewrite Hc. simpl.
    destruct (append_all_spec (nonnull tier) (discover tier []))
      as (fine & Hf & Hfget).
    { now apply nonnull_keys_NoDup. }
    { intros k v Hk. rewrite discover_spec, Hk. eauto. }
    rewrite Hf. simpl. eexists. split; [reflexivity|].
    split; [|simpl; split; intros; discriminate].
    intros [] k; unfold acc_field; simpl; [apply Hcfield|].
    rewrite Hfget, discover_spec, (field_of_nonnull Fine k ret tier Hrf).
    now destruct (dict_get k (nonnull tier)).
  - rewrite Hc. simpl. eexists. split; [reflexivity|].
    split; [|simpl; tauto].
    intros [] k; unfold acc_field; simpl; [apply Hcfield|].
    now rewrite (field_of_no_tier Fine k ret Hrf).
Qed.

End OneChunk.

(** *** The loop *)

Lemma omap_cons_option_list {X Y} (f : X -> option Y) x l :
  omap f (x :: l) = option_list (f x) ++ omap f l.
Proof. cbn [omap list_omap]. now destruct (f x). Qed.

Lemma py_range_shape (N c : nat) :
  1 <= N -> 1 <= c ->
  exists rest, py_range 0 N c = Ok (0 :: rest) /\ Forall (fun i => i <> 0) rest.
Proof.
  intros HN Hc. rewrite RenderImageFacts.py_range_from_zero by assumption.
  rewrite Nat.add_1_r. cbn [seq fmap list_fmap].
  eexists. split; [reflexivity|].
  rewrite <- fmap_S_seq. apply Forall_fmap, Forall_fmap, Forall_forall.
  intros k _. simpl. nia.
Qed.

Section Loop.
Context {A St : Type}.
Variable ev : Evaluator A St.
Variable ray_batch : RayBatch A.
Variable chunk_size : nat.
Variable train_depth_prior : option (list A).
Variable use_updated_prior_depth : bool.

Local Abbreviation loop := (render_chunks ev ray_batch chunk_size train_depth_prior
                          use_updated_prior_depth).
Local Abbreviation answers := (evaluations_on ev ray_batch chunk_size train_depth_prior
                             use_updated_prior_depth).

Lemma store_rays_fields chunk (acc acc1 : Accum A) :
  store_rays chunk acc = Ok acc1 ->
  forall t k, acc_field t k acc1 = acc_field t k acc.
Proof.
  unfold store_rays, dict_getitem.
  destruct (dict_get "ray_o" chunk); simpl; [|discriminate].
  destruct (dict_get "ray_d" chunk); simpl; [|discriminate].
  intros H. injection H as <-. now intros [] k.
Qed.

Lemma store_rays_tiers chunk (acc acc1 : Accum A) :
  store_rays chunk acc = Ok acc1 ->
  acc_coarse acc1 = acc_coarse acc /\ acc_fine acc1 = acc_fine acc.
Proof.
  unfold store_rays, dict_getitem.
  destruct (dict_get "ray_o" chunk); simpl; [|discriminate].
  destruct (dict_get "ray_d" chunk); simpl; [|discriminate].
  intros H. injection H as <-. now split.
Qed.

Lemma store_rays_ok (acc : Accum A) i :
  is_Some (dict_get "ray_o" ray_batch) ->
  is_Some (dict_get "ray_d" ray_batch) ->
  exists acc1, store_rays (build_chunk ray_batch chunk_size i) acc = Ok acc1.
Proof.
  intros [ro Hro] [rd Hrd]. unfold store_rays, dict_getitem.
  rewrite !RenderImageFacts.dict_get_build_chunk
    by (by apply (bool_decide_unpack _)).
  rewrite Hro, Hrd. simpl. eauto.
Qed.

Lemma answers_cons i rest (s : St) :
  answers (i :: rest) s
    = (ev (build_chunk ray_batch chunk_size i)
          (prior_chunk train_depth_prior use_updated_prior_depth chunk_size i) s).1
      :: answers rest
           (ev (build_chunk ray_batch chunk_size i)
               (prior_chunk train_depth_prior use_updated_prior_depth chunk_size i) s).2.
Proof. simpl. now destruct (ev _ _ s). Qed.

(** Later chunks whose fields were all discovered: the loop ends normally
    and each list has grown by the values of the chunks that have the
    field, in chunk order. *)
Lemma loop_later_ok (starts : list nat) : forall (acc : Accum A) s rs,
  Forall (fun i => i <> 0) starts ->
  is_Some (dict_get "ray_o" ray_batch) ->
  is_Some (dict_get "ray_d" ray_batch) ->
  answers starts s = Ok <$> rs ->
  Forall wf_result rs ->
  (forall r t k v, r ∈ rs -> field_of t k r = Some v -> is_Some (acc_field t k acc)) ->
  exists acc' s',
    loop starts acc s = (Ok acc', s')
    /\ (forall t k, acc_field t k acc'
                   = (fun l => l ++ omap (field_of t k) rs) <$> acc_field t k acc)
    /\ (acc_fine acc' = None <-> acc_fine acc = None).
Proof.
  induction starts as [|i rest IH]; intros acc s rs Hnz Hro Hrd Hans Hwf Hin.
  - destruct rs; [|discriminate]. exists acc, s. split; [reflexivity|].
    split; [|tauto]. intros t k. simpl. now rewrite fmap_app_nil.
  - rewrite answers_cons in Hans. destruct rs as [|r rs]; [discriminate|].
    simpl in Hans. injection Hans as Hr Hans.
    apply Forall_cons in Hnz as [Hi Hnz]. apply Forall_cons in Hwf as [Hwfr Hwf].
    cbn [render_chunks]. unfold chunk_step.
    destruct (store_rays_ok acc i Hro Hrd) as [acc1 Hstore]. rewrite Hstore.
    pose proof (store_rays_fields _ _ _ Hstore) as Hsame.
    destruct (ev _ _ s) as [r' s1]. simpl in Hr, Hans. subst r'.
    destruct (store_rays_tiers _ _ _ Hstore) as [_ Hfine1].
    destruct (accumulate_later_ok i r acc1 Hi Hwfr) as (acc2 & Hacc & Hget & Hfine2).
    { intros t k v Hf. rewrite Hsame. apply (Hin r t k v); [apply list_elem_of_here | exact Hf]. }
    rewrite Hacc.
    destruct (IH acc2 s1 rs Hnz Hro Hrd Hans Hwf) as (acc' & s' & Hloop & Hget' & Hfine').
    { intros r1 t k v Hr1 Hf. rewrite Hget, Hsame.
      apply fmap_is_Some. apply (Hin r1 t k v); [now apply list_elem_of_further | exact Hf]. }
    exists acc', s'. split; [exact Hloop|].
    split; [|rewrite Hfine', Hfine2, Hfine1; tauto].
    intros t k. rewrite Hget', Hget, Hsame, omap_cons_option_list.
    destruct (acc_field t k acc); simpl; [now rewrite app_assoc | reflexivity].
Qed.

(** A later chunk with a field that was not discovered: the loop raises,
    at that chunk if not before. *)
Lemma loop_later_raises (starts : list nat) : forall (acc : Accum A) s j rj t k v,
  Forall (fun i => i <> 0) starts ->
  answers starts s !! j = Some (Ok rj) ->
  field_of t k rj = Some v ->
  acc_field t k acc = None ->
  exists e s', loop starts acc s = (Raise e, s').
Proof.
  induction starts as [|i rest IH]; intros acc s j rj t k v Hnz Hj Hf Hnone;
    [discriminate|].
  rewrite answers_cons in Hj. apply Forall_cons in Hnz as [Hi Hnz].
  cbn [render_chunks]. unfold chunk_step.
  destruct (store_rays _ acc) as [acc1|e] eqn:Hstore; [|eauto].
  pose proof (store_rays_fields _ _ _ Hstore) as Hsame.
  destruct (ev _ _ s) as [[r|e] s1]; [|eauto]. cbn [fst snd] in Hj.
  destruct j as [|j]; simpl in Hj.
  - injection Hj as ->.
    destruct (accumulate_later_fail i rj acc1 t k v Hi Hf) as [e He];
      [now rewrite Hsame|].
    rewrite He. eauto.
  - destruct (accumulate i r acc1) as [acc2|e] eqn:Hacc; [|eauto].
    apply (IH acc2 s1 j rj t k v Hnz Hj Hf).
    apply (accumulate_later_absent i r acc1 acc2 t k Hi Hacc). now rewrite Hsame.
Qed.

End Loop.

(** *** A whole render call *)

Section Run.
Context {A St : Type}.
Variable ev : Evaluator A St.
Variable ray_batch : RayBatch A.
Variable chunk_size : nat.
Variable train_depth_prior : option (list A).
Variable use_updated_prior_depth : bool.

Local Abbreviation the_loop := (render_loop ev ray_batch chunk_size train_depth_prior
                                  use_updated_prior_depth).
Local Abbreviation the_answers := (evaluations ev ray_batch chunk_size
                                     train_depth_prior use_updated_prior_depth).

(** When every call of the evaluator returns and no later chunk has a
    field the first chunk lacks, the loop ends normally; the fields with a
    list are those of the first chunk, and the list of a field holds the
    values of the chunks that have it, in chunk order. *)
Lemma render_loop_spec (s : St) (rays : list A) r0 rs :
  dict_get "ray_o" ray_batch = Some (Some rays) ->
  1 <= length rays ->
  1 <= chunk_size ->
  is_Some (dict_get "ray_d" ray_batch) ->
  the_answers s = Ok <$> r0 :: rs ->
  Forall wf_result (r0 :: rs) ->
  (forall r t k v, r ∈ rs -> field_of t k r = Some v -> is_Some (field_of t k r0)) ->
  exists acc s',
    the_loop s = (Ok acc, s')
    /\ (forall t k, acc_field t k acc
                   = match field_of t k r0 with
                     | Some _ => Some (omap (field_of t k) (r0 :: rs))
                     | None => None
                     end)
    /\ (acc_fine acc = None <-> ret_outputs_fine r0 = None).
Proof.
  intros Hro HN Hc Hrd Hans Hwf Hin.
  unfold evaluations in Hans. unfold render_loop.
  unfold n_rays, dict_getitem in *. rewrite Hro in *. simpl in Hans. simpl.
  destruct (py_range_shape (length rays) chunk_size HN Hc) as (rest & Hrange & Hnz).
  rewrite Hrange in *.
  rewrite answers_cons in Hans. simpl in Hans. injection Hans as Hr0 Hans.
  apply Forall_cons in Hwf as [Hwf0 Hwf].
  cbn [render_chunks]. unfold chunk_step.
  destruct (store_rays_ok ray_batch chunk_size initial 0) as [acc1 Hstore];
    [rewrite Hro; eauto | exact Hrd |].
  rewrite Hstore. destruct (store_rays_tiers _ _ _ Hstore) as [Hc1 Hf1].
  destruct (ev _ _ s) as [r' s1]. simpl in Hr0, Hans. subst r'.
  destruct (accumulate_first r0 acc1 Hc1 Hf1 Hwf0) as (acc0 & Hacc & Hget0 & Hfine0).
  rewrite Hacc.
  destruct (loop_later_ok ev ray_batch chunk_size train_depth_prior
              use_updated_prior_depth rest acc0 s1 rs Hnz)
    as (acc & s' & Hloop & Hget & Hfine); try assumption.
  { rewrite Hro; eauto. }
  { intros r t k v Hr Hf. rewrite Hget0. apply fmap_is_Some. eauto. }
  exists acc, s'. split; [exact Hloop|]. split.
  - intros t k. rewrite Hget, Hget0.
    cbn [omap list_omap]. now destruct (field_of t k r0).
  - now rewrite Hfine.
Qed.

(** A later chunk with a field that is not in the schema of the first
    chunk: the loop raises. *)
Lemma render_loop_raises (s : St) (rays : list A) r0 j rj t k v :
  dict_get "ray_o" ray_batch = Some (Some rays) ->
  1 <= length rays ->
  1 <= chunk_size ->
  the_answers s !! 0 = Some (Ok r0) ->
  wf_result r0 ->
  the_answers s !! S j = Some (Ok rj) ->
  field_of t k r0 = None ->
  field_of t k rj = Some v ->
  exists e s', the_loop s = (Raise e, s').
Proof.
  intros Hro HN Hc H0 Hwf0 Hj Hnone Hsome.
  unfold evaluations in H0, Hj. unfold render_loop.
  unfold n_rays, dict_getitem in *. rewrite Hro in *. simpl in H0, Hj. simpl.
  destruct (py_range_shape (length rays) chunk_size HN Hc) as (rest & Hrange & Hnz).
  rewrite Hrange in *.
  rewrite answers_cons in H0, Hj. simpl in H0, Hj.
  cbn [render_chunks]. unfold chunk_step.
  destruct (store_rays _ initial) as [acc1|e] eqn:Hstore; [|eauto].
  destruct (store_rays_tiers _ _ _ Hstore) as [Hc1 Hf1].
  destruct (ev _ _ s) as [r' s1]. simpl in H0, Hj. injection H0 as ->.
  destruct (accumulate_first r0 acc1 Hc1 Hf1 Hwf0) as (acc0 & Hacc & Hget0 & _).
  rewrite Hacc.
  apply (loop_later_raises ev ray_batch chunk_size train_depth_prior
           use_updated_prior_depth rest acc0 s1 j rj t k v Hnz Hj Hsome).
  now rewrite Hget0, Hnone.
Qed.

End Run.

(** *** The merge after the loop *)

Lemma merge_tier_spec (h w : nat) (all : dict (list array)) : forall out,
  merge_tier h w all = Ok out ->
  forall k,
    match dict_get k all with
    | None => dict_get k out = None
    | Some chunks =>
        if exempt k then dict_get k out = Some (PerChunk chunks)
        else exists c g,
               Torch.cat chunks = Ok c
               /\ Torch.reshape_grid h w c = Ok g
               /\ dict_get k out = Some (Image (Torch.squeeze g))
    end.
Proof.
  induction all as [|[k0 chunks0] all IH]; intros out Hm k.
  - simpl in Hm. injection Hm as <-. reflexivity.
  - cbn [merge_tier] in Hm. cbn [dict_get].
    destruct (exempt k0) eqn:Hex.
    + peel Hm. injection Hm as <-. specialize (IH _ eq_refl k). simpl.
      destruct (decide (k0 = k)) as [->|Hne]; [now rewrite Hex | exact IH].
    + peel Hm. peel Hm. peel Hm. injection Hm as <-.
      specialize (IH _ eq_refl k). simpl.
      destruct (decide (k0 = k)) as [->|Hne]; [|exact IH].
      rewrite Hex. eauto.
Qed.

Lemma finalize_spec {A} (H W render_stride : nat) (acc : Accum A) out :
  finalize H W render_stride acc = Ok out ->
  exists h w,
    Torch.strided H render_stride = Ok h
    /\ Torch.strided W render_stride = Ok w
    /\ merge_tier h w (acc_coarse acc) = Ok (outputs_coarse out)
    /\ match acc_fine acc with
       | Some d => exists f, merge_tier h w d = Ok f /\ outputs_fine out = Some f
       | None => outputs_fine out = None
       end.
Proof.
  unfold finalize. intros Hf.
  do 8 peel Hf. peel Hf. peel Hf. peel Hf.
  destruct (acc_fine acc) as [d|].
  - destruct (merge_tier _ _ d) as [f|e] eqn:Hfine; simpl in Hf; [|discriminate].
    injection Hf as <-. simpl. eauto 10.
  - simpl in Hf. injection Hf as <-. simpl. eauto 10.
Qed.

(** What the render call returns for a field, from its accumulated list. *)
Lemma finalize_field {A} (H W render_stride : nat) (acc : Accum A) out :
  finalize H W render_stride acc = Ok out ->
  exists h w,
    Torch.strided H render_stride = Ok h
    /\ Torch.strided W render_stride = Ok w
    /\ (outputs_fine out = None <-> acc_fine acc = None)
    /\ forall t k,
         match acc_field t k acc with
         | None => out_field t k out = None
         | Some chunks =>
             if exempt k then out_field t k out = Some (PerChunk chunks)
             else exists c g,
                    Torch.cat chunks = Ok c
                    /\ Torch.reshape_grid h w c = Ok g
                    /\ out_field t k out = Some (Image (Torch.squeeze g))
         end.
Proof.
  intros Hf. destruct (finalize_spec _ _ _ _ _ Hf) as (h & w & Hh & Hw & Hc & Hfine).
  exists h, w. split; [exact Hh|]. split; [exact Hw|]. split.
  - destruct (acc_fine acc); [destruct Hfine as (f & _ & ->); split; discriminate|].
    now rewrite Hfine.
  - intros [] k; unfold acc_field, out_field.
    + exact (merge_tier_spec _ _ _ _ Hc k).
    + destruct (acc_fine acc) as [d|].
      * destruct Hfine as (f & Hm & ->). exact (merge_tier_spec _ _ _ _ Hm k).
      * now rewrite Hfine.
Qed.

(** *** Fields that come and go between chunks *)

(** C2 fails as stated: the first chunk has [rgb] and [random_sigma], in
    the second chunk [rgb] is missing and [random_sigma] is [None], and
    the render call returns, with what the first chunk alone gave. *)
Lemma missing_field_is_not_an_error :
  is_ok <$> evaluations RenderExamples.drops_fields RenderExamples.three_rays 2
              None false () = [true; true]
  /\ answered_field Coarse "rgb"
       <$> evaluations RenderExamples.drops_fields RenderExamples.three_rays 2
             None false ()
     = [Some (RenderExamples.rgb_of [0; 1]%Z); None]
  /\ answered_field Coarse "random_sigma"
       <$> evaluations RenderExamples.drops_fields RenderExamples.three_rays 2
             None false ()
     = [Some (RenderExamples.per_ray [0; 1]%Z); None]
  /\ is_ok (render_single_image RenderExamples.drops_fields 1 3
              RenderExamples.three_rays 2 1 None false ()).1 = true
  /\ returned_field Coarse "random_sigma"
       (render_single_image RenderExamples.drops_fields 1 3
          RenderExamples.three_rays 2 1 None false ()).1
     = Some (PerChunk [RenderExamples.per_ray [0; 1]%Z]).
Proof. vm_compute. repeat split. Qed.

(** C2, amended: in a render run whose evaluator calls all return and
    whose later chunks have no field outside the schema of the first
    chunk, a field of that schema that is missing or [None] in a later
    chunk is skipped for that chunk without an error: the loop ends
    normally, the list accumulated for each field of the schema holds the
    values of exactly the chunks that have the field, in chunk order, and
    the render call returns what the merge of these lists returns. *)
Theorem missing_field_is_skipped {A St : Type} (ev : Evaluator A St)
    (H W : nat) (ray_batch : RayBatch A) (chunk_size render_stride : nat)
    (train_depth_prior : option (list A)) (use_updated_prior_depth : bool)
    (s : St) (rays : list A) (r0 : ChunkResult) (rs : list ChunkResult) :
  dict_get "ray_o" ray_batch = Some (Some rays) ->
  1 <= length rays ->
  1 <= chunk_size ->
  is_Some (dict_get "ray_d" ray_batch) ->
  evaluations ev ray_batch chunk_size train_depth_prior use_updated_prior_depth s
    = Ok <$> r0 :: rs ->
  Forall wf_result (r0 :: rs) ->
  (forall r t k v, r ∈ rs -> field_of t k r = Some v -> is_Some (field_of t k r0)) ->
  exists acc s',
    render_loop ev ray_batch chunk_size train_depth_prior
      use_updated_prior_depth s = (Ok acc, s')
    /\ render_single_image ev H W ray_batch chunk_size render_stride
         train_depth_prior use_updated_prior_depth s
       = (finalize H W render_stride acc, s')
    /\ forall t k, acc_field t k acc
                  = match field_of t k r0 with
                    | Some _ => Some (omap (field_of t k) (r0 :: rs))
                    | None => None
                    end.
Proof.
  intros Hro HN Hc Hrd Hans Hwf Hin.
  destruct (render_loop_spec ev ray_batch chunk_size train_depth_prior
              use_updated_prior_depth s rays r0 rs Hro HN Hc Hrd Hans Hwf Hin)
    as (acc & s' & Hloop & Hget & _).
  exists acc, s'. split; [exact Hloop|]. split; [|exact Hget].
  unfold render_single_image. now rewrite Hloop.
Qed.

Lemma missing_field_is_skipped_witness :
  exists acc s',
    render_loop RenderExamples.drops_fields RenderExamples.three_rays 2
      None false () = (Ok acc, s')
    /\ render_single_image RenderExamples.drops_fields 1 3
         RenderExamples.three_rays 2 1 None false ()
       = (finalize 1 3 1 acc, s')
    /\ forall t k,
         acc_field t k acc
         = match field_of t k
                   (RenderExamples.coarse_only
                      [("rgb", Some (RenderExamples.rgb_of [0; 1]%Z));
                       ("random_sigma", Some (RenderExamples.per_ray [0; 1]%Z))])
           with
           | Some _ =>
               Some (omap (field_of t k)
                       [RenderExamples.coarse_only
                          [("rgb", Some (RenderExamples.rgb_of [0; 1]%Z));
                           ("random_sigma",
                            Some (RenderExamples.per_ray [0; 1]%Z))];
                        RenderExamples.coarse_only [("random_sigma", None)]])
           | None => None
           end.
Proof.
  apply (missing_field_is_skipped RenderExamples.drops_fields 1 3
           RenderExamples.three_rays 2 1 None false () [0; 1; 2]%Z).
  - reflexivity.
  - simpl. lia.
  - lia.
  - simpl. eauto.
  - vm_compute. reflexivity.
  - apply Forall_cons; split; [|apply Forall_cons; split; [|by apply Forall_nil]];
      (split; [by apply (bool_decide_unpack _) | exact I]).
  - intros r t k v Hr Hf. apply list_elem_of_singleton in Hr as ->.
    destruct t; unfold field_of in Hf; simpl in Hf; [|discriminate].
    destruct (decide ("random_sigma" = k)); discriminate.
Defined.

(** C3 fails as stated: the first chunk has [rgb] only, the second has
    [rgb] and [depth], and the render call raises [KeyError] instead of
    returning an output without [depth]. *)
Lemma late_field_is_not_ignored :
  answered_field Coarse "depth"
    <$> evaluations RenderExamples.adds_field RenderExamples.three_rays 2
          None false ()
    = [None; Some (RenderExamples.per_ray [2]%Z)]
  /\ (render_single_image RenderExamples.adds_field 1 3
        RenderExamples.three_rays 2 1 None false ()).1
     = Raise (KeyError (KStr "depth")).
Proof. vm_compute. repeat split. Qed.

(** C3, amended: in a render run with at least two chunks, a tier field
    that is absent or [None] in the result of the first chunk and present
    and not [None] in the result of a later chunk makes the render call
    raise; no output is returned. *)
Theorem late_field_raises {A St : Type} (ev : Evaluator A St)
    (H W : nat) (ray_batch : RayBatch A) (chunk_size render_stride : nat)
    (train_depth_prior : option (list A)) (use_updated_prior_depth : bool)
    (s : St) (rays : list A) (r0 rj : ChunkResult) (j : nat)
    (t : tier_name) (k : string) (v : array) :
  dict_get "ray_o" ray_batch = Some (Some rays) ->
  1 <= length rays ->
  1 <= chunk_size ->
  evaluations ev ray_batch chunk_size train_depth_prior use_updated_prior_depth s
    !! 0 = Some (Ok r0) ->
  wf_result r0 ->
  evaluations ev ray_batch chunk_size train_depth_prior use_updated_prior_depth s
    !! S j = Some (Ok rj) ->
  field_of t k r0 = None ->
  field_of t k rj = Some v ->
  exists e s',
    render_single_image ev H W ray_batch chunk_size render_stride
      train_depth_prior use_updated_prior_depth s = (Raise e, s').
Proof.
  intros Hro HN Hc H0 Hwf0 Hj Hnone Hsome.
  destruct (render_loop_raises ev ray_batch chunk_size train_depth_prior
              use_updated_prior_depth s rays r0 j rj t k v
              Hro HN Hc H0 Hwf0 Hj Hnone Hsome) as (e & s' & Hloop).
  exists e, s'. unfold render_single_image. now rewrite Hloop.
Qed.

Lemma late_field_raises_witness :
  exists e s',
    render_single_image RenderExamples.adds_field 1 3
      RenderExamples.three_rays 2 1 None false () = (Raise e, s').
Proof.
  apply (late_field_raises RenderExamples.adds_field 1 3
           RenderExamples.three_rays 2 1 None false () [0; 1; 2]%Z
           (RenderExamples.coarse_only
              [("rgb", Some (RenderExamples.rgb_of [0; 1]%Z))])
           (RenderExamples.coarse_only
              [("rgb", Some (RenderExamples.rgb_of [2]%Z));
               ("depth", Some (RenderExamples.per_ray [2]%Z))])
           0 Coarse "depth" (RenderExamples.per_ray [2]%Z)).
  - reflexivity.
  - simpl. lia.
  - lia.
  - vm_compute. reflexivity.
  - split; simpl; [by apply (bool_decide_unpack _) | exact I].
  - vm_compute. reflexivity.
  - vm_compute. reflexivity.
  - vm_compute. reflexivity.
Defined.

(** *** The exempt fields *)

(** C4 fails as stated: [random_sigma] comes back as the list of the two
    per-chunk tensors, not as their concatenation along the ray axis. *)
Lemma exempt_field_is_not_concatenated :
  (render_single_image RenderExamples.with_sigma 1 3
     RenderExamples.three_rays 2 1 None false ()).1
    = Ok RenderExamples.sigma_output
  /\ out_field Coarse "random_sigma" RenderExamples.sigma_output
     = Some (PerChunk [RenderExamples.per_ray [0; 1]%Z;
                       RenderExamples.per_ray [2]%Z])
  /\ Torch.cat [RenderExamples.per_ray [0; 1]%Z; RenderExamples.per_ray [2]%Z]
     = Ok (RenderExamples.per_ray [0; 1; 2]%Z)
  /\ out_field Coarse "random_sigma" RenderExamples.sigma_output
     <> Some (Image (RenderExamples.per_ray [0; 1; 2]%Z)).
Proof. vm_compute. repeat split. discriminate. Qed.

(** C4, amended: in a render run that returns, a field of the schema of
    the first chunk named [random_sigma] or [depth_cov] comes back as the
    list of its per-chunk values in chunk order, not concatenated, not
    reshaped and not squeezed; every other field of the schema comes back
    as the concatenation of its per-chunk values along the ray axis,
    reshaped to the strided grid and squeezed; no other field comes
    back. *)
Theorem merge_keeps_exempt_lists {A St : Type} (ev : Evaluator A St)
    (H W : nat) (ray_batch : RayBatch A) (chunk_size render_stride : nat)
    (train_depth_prior : option (list A)) (use_updated_prior_depth : bool)
    (s : St) (rays : list A) (r0 : ChunkResult) (rs : list ChunkResult)
    (out : AllRet A) (s1 : St) :
  dict_get "ray_o" ray_batch = Some (Some rays) ->
  1 <= length rays ->
  1 <= chunk_size ->
  is_Some (dict_get "ray_d" ray_batch) ->
  evaluations ev ray_batch chunk_size train_depth_prior use_updated_prior_depth s
    = Ok <$> r0 :: rs ->
  Forall wf_result (r0 :: rs) ->
  (forall r t k v, r ∈ rs -> field_of t k r = Some v -> is_Some (field_of t k r0)) ->
  render_single_image ev H W ray_batch chunk_size render_stride
    train_depth_prior use_updated_prior_depth s = (Ok out, s1) ->
  exists h w,
    Torch.strided H render_stride = Ok h
    /\ Torch.strided W render_stride = Ok w
    /\ forall t k,
         match field_of t k r0 with
         | None => out_field t k out = None
         | Some _ =>
             if exempt k
             then out_field t k out
                  = Some (PerChunk (omap (field_of t k) (r0 :: rs)))
             else exists c g,
                    Torch.cat (omap (field_of t k) (r0 :: rs)) = Ok c
                    /\ Torch.reshape_grid h w c = Ok g
                    /\ out_field t k out = Some (Image (Torch.squeeze g))
         end.
Proof.
  intros Hro HN Hc Hrd Hans Hwf Hin Hrender.
  destruct (render_loop_spec ev ray_batch chunk_size train_depth_prior
              use_updated_prior_depth s rays r0 rs Hro HN Hc Hrd Hans Hwf Hin)
    as (acc & s' & Hloop & Hget & _).
  unfold render_single_image in Hrender. rewrite Hloop in Hrender.
  injection Hrender as Hfin _.
  destruct (finalize_field _ _ _ _ _ Hfin) as (h & w & Hh & Hw & _ & Hout).
  exists h, w. split; [exact Hh|]. split; [exact Hw|].
  intros t k. specialize (Hout t k). rewrite Hget in Hout.
  now destruct (field_of t k r0).
Qed.

Lemma merge_keeps_exempt_lists_witness :
  exists h w,
    Torch.strided 1 1 = Ok h
    /\ Torch.strided 3 1 = Ok w
    /\ forall t k,
         match field_of t k
                 (RenderExamples.coarse_only
                    [("rgb", Some (RenderExamples.rgb_of [0; 1]%Z));
                     ("random_sigma", Some (RenderExamples.per_ray [0; 1]%Z))])
         with
         | None => out_field t k RenderExamples.sigma_output = None
         | Some _ =>
             if exempt k
             then out_field t k RenderExamples.sigma_output
                  = Some (PerChunk
                            (omap (field_of t k)
                               [RenderExamples.coarse_only
                                  [("rgb", Some (RenderExamples.rgb_of [0; 1]%Z));
                                   ("random_sigma",
                                    Some (RenderExamples.per_ray [0; 1]%Z))];
                                RenderExamples.coarse_only
                                  [("rgb", Some (RenderExamples.rgb_of [2]%Z));
                                   ("random_sigma",
                                    Some (RenderExamples.per_ray [2]%Z))]]))
             else exists c g,
                    Torch.cat
                      (omap (field_of t k)
                         [RenderExamples.coarse_only
                            [("rgb", Some (RenderExamples.rgb_of [0; 1]%Z));
                             ("random_sigma",
                              Some (RenderExamples.per_ray [0; 1]%Z))];
                          RenderExamples.coarse_only
                            [("rgb", Some (RenderExamples.rgb_of [2]%Z));
                             ("random_sigma",
                              Some (RenderExamples.per_ray [2]%Z))]]) = Ok c
                    /\ Torch.reshape_grid h w c = Ok g
                    /\ out_field t k RenderExamples.sigma_output
                       = Some (Image (Torch.squeeze g))
         end.
Proof.
  apply (merge_keeps_exempt_lists RenderExamples.with_sigma 1 3
           RenderExamples.three_rays 2 1 None false () [0; 1; 2]%Z
           _ _ RenderExamples.sigma_output ()).
  - reflexivity.
  - simpl. lia.
  - lia.
  - simpl. eauto.
  - vm_compute. reflexivity.
  - apply Forall_cons; split; [|apply Forall_cons; split; [|by apply Forall_nil]];
      (split; [by apply (bool_decide_unpack _) | exact I]).
  - intros r t k v Hr Hf. apply list_elem_of_singleton in Hr as ->.
    destruct t; unfold field_of in *; simpl in *; [|discriminate].
    destruct (decide ("rgb" = k)); [eauto|].
    destruct (decide ("random_sigma" = k)); [eauto | discriminate].
  - vm_compute. reflexivity.
Defined.

(** *** Ten rays in chunks of four *)

(** An evaluator that always returns answers every chunk of the loop. *)
Lemma answers_all_ok {A St : Type} (ev : Evaluator A St) (ray_batch : RayBatch A)
    (chunk_size : nat) (train_depth_prior : option (list A))
    (use_updated_prior_depth : bool)
    (Q : list (string * option (list A)) -> ChunkResult -> Prop) :
  (forall chunk prior s, exists r s', ev chunk prior s = (Ok r, s') /\ Q chunk r) ->
  forall starts s,
    exists rs,
      evaluations_on ev ray_batch chunk_size train_depth_prior
        use_updated_prior_depth starts s = Ok <$> rs
      /\ Forall2 (fun i r => Q (build_chunk ray_batch chunk_size i) r) starts rs.
Proof.
  intros Hev starts. induction starts as [|i rest IH]; intros s.
  - exists []. split; [reflexivity | constructor].
  - rewrite answers_cons.
    destruct (Hev (build_chunk ray_batch chunk_size i)
                (prior_chunk train_depth_prior use_updated_prior_depth chunk_size i) s)
      as (r & s' & Heq & HQ).
    rewrite Heq. simpl. destruct (IH s') as (rs & Hrs & Hall).
    exists (r :: rs). split; [now rewrite Hrs | now constructor].
Qed.

Lemma coarse_color_depth_fields n ctail dtail r :
  coarse_color_depth n ctail dtail r ->
  wf_result r
  /\ ret_outputs_fine r = None
  /\ (forall k, field_of Fine k r = None)
  /\ (forall k v, field_of Coarse k r = Some v -> k = "color" \/ k = "depth")
  /\ exists c d,
       field_of Coarse "color" r = Some c /\ field_of Coarse "depth" r = Some d
       /\ shape c = n :: ctail /\ shape d = n :: dtail.
Proof.
  intros (c & d & Hcoarse & Hfine & Hc & Hd). unfold wf_result, field_of, tier_of.
  rewrite Hcoarse, Hfine. split; [|split; [|split; [|split]]].
  - split; [by apply (bool_decide_unpack _) | exact I].
  - reflexivity.
  - reflexivity.
  - intros k v. simpl.
    destruct (decide ("color" = k)); [auto|].
    destruct (decide ("depth" = k)); [auto | discriminate].
  - exists c, d. repeat split; assumption.
Qed.

Lemma cat_three (a b c : array) (na nb nc : nat) (tl : list nat) :
  shape a = S na :: tl -> shape b = S nb :: tl -> shape c = S nc :: tl ->
  exists t, Torch.cat [a; b; c] = Ok t /\ shape t = (S na + S nb + S nc) :: tl.
Proof.
  intros Ha Hb Hc. unfold Torch.cat. cbn [existsb].
  rewrite Ha, Hb, Hc.
  rewrite !bool_decide_eq_false_2 by discriminate. cbn [orb].
  rewrite !filter_cons, filter_nil.
  rewrite Ha, Hb, Hc.
  rewrite !decide_True by discriminate.
  cbn [forallb]. rewrite Ha, Hb, Hc. cbn [tail].
  rewrite !bool_decide_eq_true_2 by reflexivity. cbn [andb].
  eexists. split; [reflexivity|]. simpl. unfold Torch.dim0.
  rewrite Ha, Hb, Hc. simpl. f_equal. lia.
Qed.

Lemma window_length {X} (rays : list X) (i : nat) :
  length rays = 10 -> length (take 4 (drop i rays)) = 4 `min` (10 - i).
Proof. intros H. now rewrite length_take, length_drop, H. Qed.

(** C5: ten rays with [chunk_size = 4] are rendered in chunks of 4, 4 and
    2 rays; with an evaluator that returns a coarse tier with the fields
    [color] and [depth] and no fine tier, the loop accumulates for each of
    the two fields three tensors of 4, 4 and 2 rows, whose concatenation
    has 10 rows, the fine tier is [None] after the loop, and it is [None]
    in whatever the render call returns. *)
Theorem ten_rays_in_chunks_of_four {A St : Type} (ev : Evaluator A St)
    (ray_batch : RayBatch A) (rays : list A)
    (train_depth_prior : option (list A)) (use_updated_prior_depth : bool)
    (s : St) (ctail dtail : list nat) :
  dict_get "ray_o" ray_batch = Some (Some rays) ->
  length rays = 10 ->
  is_Some (dict_get "ray_d" ray_batch) ->
  (forall chunk prior s0, exists r s1,
     ev chunk prior s0 = (Ok r, s1)
     /\ coarse_color_depth (length (rays_of chunk)) ctail dtail r) ->
  (fun v => length (rays_of v)) <$> chunk_views ray_batch 4 = [4; 4; 2]
  /\ exists acc s' colors depths,
       render_loop ev ray_batch 4 train_depth_prior use_updated_prior_depth s
         = (Ok acc, s')
       /\ acc_fine acc = None
       /\ acc_field Coarse "color" acc = Some colors
       /\ acc_field Coarse "depth" acc = Some depths
       /\ Torch.dim0 <$> colors = [4; 4; 2]
       /\ Torch.dim0 <$> depths = [4; 4; 2]
       /\ (exists t, Torch.cat colors = Ok t /\ shape t = 10 :: ctail)
       /\ (exists t, Torch.cat depths = Ok t /\ shape t = 10 :: dtail)
       /\ forall H W render_stride,
            render_single_image ev H W ray_batch 4 render_stride
              train_depth_prior use_updated_prior_depth s
              = (finalize H W render_stride acc, s')
            /\ forall out, finalize H W render_stride acc = Ok out ->
                           outputs_fine out = None.
Proof.
  intros Hro Hlen Hrd Hev.
  assert (HN : 1 <= length rays) by lia.
  assert (Hstarts : n_rays ray_batch ≫= (fun N => py_range 0 N 4) = Ok [0; 4; 8]).
  { unfold n_rays, dict_getitem. rewrite Hro. simpl. now rewrite Hlen. }
  split.
  - unfold chunk_views. rewrite Hstarts. simpl.
    rewrite !(RenderImageFacts.rays_of_build_chunk _ _ _ _ Hro).
    now rewrite !window_length by exact Hlen.
  - destruct (answers_all_ok ev ray_batch 4 train_depth_prior
                use_updated_prior_depth _ Hev [0; 4; 8] s) as (rs & Hans & Hall).
    apply Forall2_cons_inv_l in Hall as (r0 & rs0 & H0 & Hall & ->).
    apply Forall2_cons_inv_l in Hall as (r1 & rs1 & H1 & Hall & ->).
    apply Forall2_cons_inv_l in Hall as (r2 & rs2 & H2 & Hall & ->).
    apply Forall2_nil_inv_l in Hall as ->.
    rewrite (RenderImageFacts.rays_of_build_chunk _ _ _ _ Hro),
      (window_length _ _ Hlen) in H0.
    rewrite (RenderImageFacts.rays_of_build_chunk _ _ _ _ Hro),
      (window_length _ _ Hlen) in H1.
    rewrite (RenderImageFacts.rays_of_build_chunk _ _ _ _ Hro),
      (window_length _ _ Hlen) in H2.
    simpl in H0, H1, H2.
    destruct (coarse_color_depth_fields _ _ _ _ H0)
      as (Hwf0 & Hnf0 & Hf0 & Hk0 & c0 & d0 & Hc0 & Hd0 & Hsc0 & Hsd0).
    destruct (coarse_color_depth_fields _ _ _ _ H1)
      as (Hwf1 & Hnf1 & Hf1 & Hk1 & c1 & d1 & Hc1 & Hd1 & Hsc1 & Hsd1).
    destruct (coarse_color_depth_fields _ _ _ _ H2)
      as (Hwf2 & Hnf2 & Hf2 & Hk2 & c2 & d2 & Hc2 & Hd2 & Hsc2 & Hsd2).
    destruct (render_loop_spec ev ray_batch 4 train_depth_prior
                use_updated_prior_depth s rays r0 [r1; r2] Hro HN)
      as (acc & s' & Hloop & Hget & Hfine); try assumption.
    { lia. }
    { unfold evaluations. now rewrite Hstarts. }
    { repeat (apply Forall_cons; split; [assumption|]). by apply Forall_nil. }
    { intros r t k v Hr Hf. destruct t.
      - assert (Hk : k = "color" \/ k = "depth").
        { apply elem_of_cons in Hr as [->|Hr]; [eauto|].
          apply list_elem_of_singleton in Hr as ->. eauto. }
        destruct Hk as [->| ->]; [rewrite Hc0 | rewrite Hd0]; eauto.
      - apply elem_of_cons in Hr as [->|Hr]; [congruence|].
        apply list_elem_of_singleton in Hr as ->. congruence. }
    pose proof (Hget Coarse "color") as Hcolor.
    pose proof (Hget Coarse "depth") as Hdepth.
    rewrite Hc0 in Hcolor. rewrite Hd0 in Hdepth.
    cbn [omap list_omap] in Hcolor, Hdepth.
    rewrite Hc0, Hc1, Hc2 in Hcolor. rewrite Hd0, Hd1, Hd2 in Hdepth.
    exists acc, s', [c0; c1; c2], [d0; d1; d2].
    split; [exact Hloop|]. split; [apply Hfine, Hnf0 |].
    split; [exact Hcolor|]. split; [exact Hdepth|].
    split; [simpl; unfold Torch.dim0; now rewrite Hsc0, Hsc1, Hsc2|].
    split; [simpl; unfold Torch.dim0; now rewrite Hsd0, Hsd1, Hsd2|].
    split; [exact (cat_three c0 c1 c2 3 3 1 ctail Hsc0 Hsc1 Hsc2)|].
    split; [exact (cat_three d0 d1 d2 3 3 1 dtail Hsd0 Hsd1 Hsd2)|].
    intros H W render_stride. split.
    + unfold render_single_image. now rewrite Hloop.
    + intros out Hfin.
      destruct (finalize_field _ _ _ _ _ Hfin) as (h & w & _ & _ & Hnone & _).
      apply Hnone, Hfine, Hnf0.
Qed.

Lemma ten_rays_in_chunks_of_four_witness :
  (fun v => length (rays_of v)) <$> chunk_views RenderExamples.ten_rays 4
    = [4; 4; 2]
  /\ exists acc s' colors depths,
       render_loop RenderExamples.color_depth RenderExamples.ten_rays 4
         None false () = (Ok acc, s')
       /\ acc_fine acc = None
       /\ acc_field Coarse "color" acc = Some colors
       /\ acc_field Coarse "depth" acc = Some depths
       /\ Torch.dim0 <$> colors = [4; 4; 2]
       /\ Torch.dim0 <$> depths = [4; 4; 2]
       /\ (exists t, Torch.cat colors = Ok t /\ shape t = [10; 3])
       /\ (exists t, Torch.cat depths = Ok t /\ shape t = [10])
       /\ forall H W render_stride,
            render_single_image RenderExamples.color_depth H W
              RenderExamples.ten_rays 4 render_stride None false ()
              = (finalize H W render_stride acc, s')
            /\ forall out, finalize H W render_stride acc = Ok out ->
                           outputs_fine out = None.
Proof.
  apply (ten_rays_in_chunks_of_four RenderExamples.color_depth
           RenderExamples.ten_rays [0; 1; 2; 3; 4; 5; 6; 7; 8; 9]%Z
           None false () [3] []).
  - reflexivity.
  - reflexivity.
  - simpl. eauto.
  - intros chunk prior s0. eexists _, s0. split; [reflexivity|].
    eexists _, _. repeat split.
Defined.

End AggregationFacts.

(** ** The client registry of visualization.py *)

Module VisualizationFacts.
Import Visualization.

Section Events.
Context {D Scene : Type}.
Variable draw : D -> result Scene.
Implicit Types (v : @Viewer D Scene) (client_id : Z).

Lemma disconnect_unregisters v client_id :
  render_statemachines (handle_disconnect v client_id) !! client_id = None.
Proof.
  unfold handle_disconnect.
  destruct (render_statemachines v !! client_id) eqn:Hreg; simpl;
    [apply lookup_delete_eq | exact Hreg].
Qed.

Lemma disconnect_keeps_ready v client_id :
  ready (handle_disconnect v client_id) = ready v.
Proof.
  unfold handle_disconnect. now destruct (render_statemachines v !! client_id).
Qed.

(** An event of a client without an entry in the registry returns
    silently only while the viewer is not ready; once it is ready the
    lookup raises.  The viewer is left as it was. *)
Lemma event_without_session v client_id :
  render_statemachines v !! client_id = None ->
  on_camera_update draw v client_id
    = (if ready v then Raise (KeyError (KInt client_id)) else Ok (), v).
Proof.
  intros Hreg. unfold on_camera_update. rewrite Hreg. now destruct (ready v).
Qed.

(** C9 (what the code does instead): on a viewer that is ready, a camera
    event of a client that connected and then disconnected is not dropped
    silently; the handler raises [KeyError] for the client id.  The
    registry and the rest of the viewer are left as they were. *)
Theorem event_after_disconnect_raises v client_id :
  ready v = true ->
  on_camera_update draw
    (handle_disconnect (handle_new_client v client_id) client_id) client_id
    = (Raise (KeyError (KInt client_id)),
       handle_disconnect (handle_new_client v client_id) client_id).
Proof.
  intros Hready. rewrite event_without_session by apply disconnect_unregisters.
  rewrite disconnect_keeps_ready. simpl. now rewrite Hready.
Qed.

End Events.

Lemma event_after_disconnect_raises_witness :
  on_camera_update VisualizationExamples.draw_nothing
    (handle_disconnect
       (handle_new_client VisualizationExamples.ready_viewer 7) 7) 7
    = (Raise (KeyError (KInt 7)),
       handle_disconnect
         (handle_new_client VisualizationExamples.ready_viewer 7) 7).
Proof.
  apply (event_after_disconnect_raises VisualizationExamples.draw_nothing
           VisualizationExamples.ready_viewer 7%Z).
  reflexivity.
Defined.

End VisualizationFacts.

(* ================================================================== *)
(** * Further properties of the sources *)

(** ** The state machine between resets *)

Module StateMachineCycle.
Import RenderStateMachine.

Lemma make_output_of_payload (render_data : gmap string array) (now : Z)
    (p c d : array) (n : nat) :
  render_data !! "points" = Some p ->
  render_data !! "colors" = Some c ->
  render_data !! "depths" = Some d ->
  len p = Ok n ->
  make_output render_data now
    = Ok {| points := p; colors := c; depths := d;
            normals := render_data !! "normals";
            metadata := Some {| timestamp := now; num_points := n |} |}.
Proof.
  intros Hp Hc Hd Hn. unfold make_output, getitem.
  rewrite Hp, Hc, Hd. simpl. now rewrite Hn.
Qed.

(** X1: A publish from [RENDERING] with the three required arrays, [points]
    having a first dimension, builds the output from the payload, queues
    it and puts it in the slot. *)
Theorem publish_builds_output (sm : t) (render_data : gmap string array)
    (now : Z) (p c d : array) (n : nat) :
  state sm = RENDERING ->
  render_data !! "points" = Some p ->
  render_data !! "colors" = Some c ->
  render_data !! "depths" = Some d ->
  len p = Ok n ->
  process_render_output sm render_data now
    = Ok {| state := VISUALIZING;
            current_output :=
              Some {| points := p; colors := c; depths := d;
                      normals := render_data !! "normals";
                      metadata := Some {| timestamp := now; num_points := n |} |};
            output_queue :=
              output_queue sm
                ++ [{| points := p; colors := c; depths := d;
                       normals := render_data !! "normals";
                       metadata := Some {| timestamp := now; num_points := n |} |}] |}.
Proof.
  intros Hs Hp Hc Hd Hn.
  pose proof (make_output_of_payload render_data now p c d n Hp Hc Hd Hn) as Ho.
  unfold process_render_output, publish.
  rewrite decide_True by exact Hs.
  cbn [set_state output_queue]. rewrite Ho. reflexivity.
Qed.

Lemma publish_builds_output_witness :
  process_render_output StateMachineExamples.rendering
    (StateMachineExamples.payload 1) 10
    = Ok {| state := VISUALIZING;
            current_output := Some (StateMachineExamples.output 1 10);
            output_queue := [StateMachineExamples.output 1 10] |}.
Proof.
  apply (publish_builds_output StateMachineExamples.rendering
           (StateMachineExamples.payload 1) 10%Z
           (StateMachineExamples.cloud 1) (StateMachineExamples.cloud 1)
           (StateMachineExamples.depth_of 1) 1);
    vm_compute; reflexivity.
Defined.

Lemma make_output_fails_iff (render_data : gmap string array) (now : Z) :
  (exists e, make_output render_data now = Raise e)
  <-> (render_data !! "points" = None
       \/ render_data !! "colors" = None
       \/ render_data !! "depths" = None
       \/ exists p, render_data !! "points" = Some p /\ shape p = []).
Proof.
  unfold make_output, getitem, len.
  destruct (render_data !! "points") as [p|] eqn:Hp; simpl;
    [|split; [auto | eauto]].
  destruct (render_data !! "colors") as [c|] eqn:Hc; simpl;
    [|split; [auto | eauto]].
  destruct (render_data !! "depths") as [d|] eqn:Hd; simpl;
    [|split; [auto 6 | eauto]].
  destruct (shape p) as [|n tl] eqn:Hshape; simpl.
  - split; [intros _; right; right; right; eauto | eauto].
  - split; [intros [e He]; discriminate|].
    intros [H|[H|[H|(p' & Hp' & Hs)]]]; try discriminate.
    injection Hp' as <-. congruence.
Qed.

(** X2: A publish from [RENDERING] always returns, ends in [VISUALIZING] or
    in [ERROR], and ends in [ERROR] exactly when a required array is
    missing or [points] is 0-dimensional; in that case the slot and the
    queue are untouched. *)
Theorem publish_fails_exactly_when (sm : t) (render_data : gmap string array)
    (now : Z) :
  state sm = RENDERING ->
  exists sm',
    process_render_output sm render_data now = Ok sm'
    /\ (state sm' = VISUALIZING \/ state sm' = ERROR)
    /\ (state sm' = ERROR
        <-> (render_data !! "points" = None
             \/ render_data !! "colors" = None
             \/ render_data !! "depths" = None
             \/ exists p, render_data !! "points" = Some p /\ shape p = []))
    /\ (state sm' = ERROR ->
        current_output sm' = current_output sm
        /\ output_queue sm' = output_queue sm).
Proof.
  intros Hs. pose proof (make_output_fails_iff render_data now) as Hiff.
  destruct (make_output render_data now) as [o|e] eqn:Ho.
  - rewrite (RenderStateMachineFacts.process_in_rendering_ok _ _ _ _ Hs Ho).
    eexists. split; [reflexivity|]. simpl. split; [auto|]. split.
    + split; [discriminate|].
      intros H. apply Hiff in H as [e He]. discriminate.
    + discriminate.
  - rewrite (RenderStateMachineFacts.process_in_rendering_fail _ _ _ _ Hs Ho).
    eexists. split; [reflexivity|]. simpl. split; [auto|]. split; [|auto].
    split; [intros _; apply Hiff; eauto | reflexivity].
Qed.

Lemma publish_fails_exactly_when_witness :
  exists sm',
    process_render_output StateMachineExamples.rendering
      StateMachineExamples.no_depths 10 = Ok sm'
    /\ (state sm' = VISUALIZING \/ state sm' = ERROR)
    /\ (state sm' = ERROR
        <-> (StateMachineExamples.no_depths !! "points" = None
             \/ StateMachineExamples.no_depths !! "colors" = None
             \/ StateMachineExamples.no_depths !! "depths" = None
             \/ exists p, StateMachineExamples.no_depths !! "points" = Some p
                          /\ shape p = []))
    /\ (state sm' = ERROR ->
        current_output sm' = current_output StateMachineExamples.rendering
        /\ output_queue sm' = output_queue StateMachineExamples.rendering).
Proof.
  apply (publish_fails_exactly_when StateMachineExamples.rendering
           StateMachineExamples.no_depths 10%Z).
  reflexivity.
Defined.

Lemma step_outside_cycle (c : call) (sm : t) :
  state sm <> IDLE -> state sm <> RENDERING -> c <> CallReset ->
  state (step c sm).1 = state sm
  /\ current_output (step c sm).1 = current_output sm
  /\ published (step c sm).2 = [].
Proof.
  intros Hidle Hrend Hc. destruct c as [|render_data now| |]; simpl.
  - unfold start_render. now rewrite decide_False.
  - rewrite RenderStateMachineFacts.process_elsewhere by exact Hrend.
    unfold newly_queued. now rewrite drop_all.
  - unfold get_next_output. now destruct (output_queue sm).
  - contradiction.
Qed.

(** X3: Once a machine is in [VISUALIZING], [ERROR] (or [PROCESSING]), no
    sequence of [start_render], [process_render_output] and
    [get_next_output] calls changes its state or its slot or publishes
    anything: only [reset] starts a new cycle. *)
Theorem nothing_published_until_reset (cs : list call) : forall sm : t,
  state sm <> IDLE ->
  state sm <> RENDERING ->
  Forall (fun c => c <> CallReset) cs ->
  state (run cs sm).1 = state sm
  /\ current_output (run cs sm).1 = current_output sm
  /\ published (run cs sm).2 = [].
Proof.
  induction cs as [|c cs IH]; intros sm Hidle Hrend Hcs; [simpl; auto|].
  apply Forall_cons in Hcs as [Hc Hcs].
  rewrite RenderStateMachineFacts.run_cons. cbn [fst snd].
  destruct (step_outside_cycle c sm Hidle Hrend Hc) as (Hs & Ho & Hp).
  destruct (IH (step c sm).1) as (Hs' & Ho' & Hp'); [congruence | congruence | exact Hcs |].
  rewrite RenderStateMachineFacts.published_app, Hp, Hp', Hs', Ho', Hs, Ho. auto.
Qed.

Lemma nothing_published_until_reset_witness :
  state (run [CallStart; CallPublish (StateMachineExamples.payload 2) 20; CallPoll]
           StateMachineExamples.visualizing).1 = VISUALIZING
  /\ current_output
       (run [CallStart; CallPublish (StateMachineExamples.payload 2) 20; CallPoll]
          StateMachineExamples.visualizing).1
     = Some (StateMachineExamples.output 1 10)
  /\ published
       (run [CallStart; CallPublish (StateMachineExamples.payload 2) 20; CallPoll]
          StateMachineExamples.visualizing).2 = [].
Proof.
  apply (nothing_published_until_reset
           [CallStart; CallPublish (StateMachineExamples.payload 2) 20%Z; CallPoll]
           StateMachineExamples.visualizing).
  - discriminate.
  - discriminate.
  - repeat (apply Forall_cons; split; [discriminate|]). by apply Forall_nil.
Defined.

Lemma step_keeps_settled (c : call) (sm : t) :
  settled sm -> settled (step c sm).1.
Proof.
  unfold settled. intros Hinv. destruct c as [|render_data now| |]; simpl.
  - unfold start_render. destruct (state sm) eqn:Hs; simpl; rewrite ?Hs; auto.
  - destruct (decide (state sm = RENDERING)) as [Hs|Hs].
    + rewrite Hs in Hinv. destruct Hinv as [Hslot Hq].
      destruct (make_output render_data now) as [o|e] eqn:Ho.
      * rewrite (RenderStateMachineFacts.process_in_rendering_ok _ _ _ _ Hs Ho).
        simpl. rewrite Hq. eauto.
      * rewrite (RenderStateMachineFacts.process_in_rendering_fail _ _ _ _ Hs Ho).
        simpl. auto.
    + now rewrite RenderStateMachineFacts.process_elsewhere.
  - unfold get_next_output. destruct (output_queue sm) as [|o q] eqn:Hq; simpl;
      [now rewrite Hq|].
    destruct (state sm); try (destruct Hinv as [_ Hnil]; discriminate); auto.
    destruct Hinv as (o' & Hslot & [Hone|Hnil]); [|discriminate].
    injection Hone as -> ->. eauto.
  - now rewrite RenderStateMachineFacts.drain_nil.
Qed.

Lemma run_keeps_settled (cs : list call) : forall sm,
  settled sm -> settled (run cs sm).1.
Proof.
  induction cs as [|c cs IH]; intros sm Hinv; [exact Hinv|].
  rewrite RenderStateMachineFacts.run_cons. cbn [fst]. apply IH.
  now apply step_keeps_settled.
Qed.

(** X4: Whatever is called on a new machine, in whatever order: it is never
    left in [PROCESSING], the queue never holds more than one output, the
    slot is filled exactly in [VISUALIZING], and a queued output is the
    one in the slot. *)
Theorem at_most_one_output_queued (cs : list call) :
  state (run cs init).1 <> PROCESSING
  /\ length (output_queue (run cs init).1) <= 1
  /\ (is_Some (current_output (run cs init).1)
      <-> state (run cs init).1 = VISUALIZING)
  /\ (forall o, o ∈ output_queue (run cs init).1 ->
                current_output (run cs init).1 = Some o).
Proof.
  assert (Hinit : settled init) by (unfold settled; simpl; auto).
  pose proof (run_keeps_settled cs init Hinit) as Hinv.
  unfold settled in Hinv. destruct (run cs init) as [sm log]. simpl in *.
  destruct (state sm) eqn:Hs;
    try (destruct Hinv as [-> ->]; simpl; repeat split;
         try discriminate; try lia;
         [intros [? ?]; discriminate | intros o Ho; by apply elem_of_nil in Ho]).
  - contradiction.
  - destruct Hinv as (o & -> & [-> | ->]); simpl; repeat split;
      try discriminate; try lia; eauto.
    + intros o' Ho'. apply list_elem_of_singleton in Ho' as ->. reflexivity.
    + intros o' Ho'. by apply elem_of_nil in Ho'.
Qed.

(** X5: [n] polls hand over the [n] oldest queued outputs, oldest first, and
    leave the rest of the queue, the state and the slot as they were;
    polls on an empty queue return nothing. *)
Theorem polls_drain_in_order (n : nat) : forall sm : t,
  run (replicate n CallPoll) sm
    = ({| state := state sm; current_output := current_output sm;
          output_queue := drop n (output_queue sm) |},
       Polled <$> take n (output_queue sm)).
Proof.
  induction n as [|n IH]; intros [st slot q]; [reflexivity|].
  cbn [replicate]. rewrite RenderStateMachineFacts.run_cons.
  cbn [step]. unfold get_next_output. cbn [output_queue].
  destruct q as [|o q]; cbn [fst snd]; rewrite IH; simpl.
  - now rewrite drop_nil, take_nil.
  - reflexivity.
Qed.

(** X6: From any state, [reset], [start_render] and a publish with a
    well-formed payload leave the machine in [VISUALIZING] with exactly
    the new output in the slot and in the queue: whatever was queued
    before is discarded, and an [ERROR] is left behind. *)
Theorem reset_start_publish_recovers (sm : t) (render_data : gmap string array)
    (now : Z) (o : RenderOutput) :
  make_output render_data now = Ok o ->
  run [CallReset; CallStart; CallPublish render_data now] sm
    = ({| state := VISUALIZING; current_output := Some o; output_queue := [o] |},
       (Dropped <$> output_queue sm) ++ [WasReset; Published o]).
Proof.
  intros Ho. rewrite !RenderStateMachineFacts.run_cons. cbn [run step fst snd].
  rewrite RenderStateMachineFacts.reset_is_init.
  change (start_render init)
    with {| state := RENDERING; current_output := None; output_queue := [] |}.
  rewrite (RenderStateMachineFacts.process_in_rendering_ok
             {| state := RENDERING; current_output := None; output_queue := [] |}
             _ _ o eq_refl Ho).
  unfold newly_queued. simpl. now rewrite <- app_assoc.
Qed.

Lemma reset_start_publish_recovers_witness :
  run [CallReset; CallStart; CallPublish (StateMachineExamples.payload 2) 20]
    StateMachineExamples.visualizing
    = ({| state := VISUALIZING;
          current_output := Some (StateMachineExamples.output 2 20);
          output_queue := [StateMachineExamples.output 2 20] |},
       (Dropped <$> output_queue StateMachineExamples.visualizing)
         ++ [WasReset; Published (StateMachineExamples.output 2 20)]).
Proof.
  apply (reset_start_publish_recovers StateMachineExamples.visualizing
           (StateMachineExamples.payload 2) 20%Z
           (StateMachineExamples.output 2 20)).
  vm_compute. reflexivity.
Defined.

End StateMachineCycle.

(** ** viewer.py: updates of the point cloud *)

Module PointCloudViewerFacts.
Import RenderStateMachine PointCloudViewer.

Lemma update_leaves_cycle (v : Viewer) (point_cloud_data : gmap string array)
    (now : Z) :
  exists v1,
    update_point_cloud v point_cloud_data now = Ok v1
    /\ state (state_machine v1) <> IDLE
    /\ state (state_machine v1) <> RENDERING.
Proof.
  unfold update_point_cloud, start_render.
  destruct (decide (state (state_machine v) = IDLE)) as [Hidle|Hidle].
  - destruct (make_output point_cloud_data now) as [o|e] eqn:Ho.
    + rewrite (RenderStateMachineFacts.process_in_rendering_ok
                 (set_state RENDERING (state_machine v)) _ _ o eq_refl Ho).
      simpl. eexists. split; [reflexivity|]. simpl. split; discriminate.
    + rewrite (RenderStateMachineFacts.process_in_rendering_fail
                 (set_state RENDERING (state_machine v)) _ _ e eq_refl Ho).
      simpl. eexists. split; [reflexivity|]. simpl. split; discriminate.
  - destruct (decide (state (state_machine v) = RENDERING)) as [Hrend|Hrend].
    + destruct (make_output point_cloud_data now) as [o|e] eqn:Ho.
      * rewrite (RenderStateMachineFacts.process_in_rendering_ok _ _ _ o Hrend Ho).
        simpl. eexists. split; [reflexivity|]. simpl. split; discriminate.
      * rewrite (RenderStateMachineFacts.process_in_rendering_fail _ _ _ e Hrend Ho).
        simpl. eexists. split; [reflexivity|]. simpl. split; discriminate.
    + rewrite RenderStateMachineFacts.process_elsewhere by exact Hrend.
      simpl. eexists. split; [reflexivity|]. simpl. auto.
Qed.

Lemma update_outside_cycle (v : Viewer) (point_cloud_data : gmap string array)
    (now : Z) :
  state (state_machine v) <> IDLE ->
  state (state_machine v) <> RENDERING ->
  update_point_cloud v point_cloud_data now = Ok v.
Proof.
  intros Hidle Hrend. unfold update_point_cloud, start_render.
  rewrite decide_False by exact Hidle.
  rewrite RenderStateMachineFacts.process_elsewhere by exact Hrend.
  simpl. now destruct v.
Qed.

(** X7: [update_point_cloud] always returns, and after one call every further
    call, with whatever data, leaves the viewer as it is: nothing resets
    the state machine between two updates, so only the first update of a
    viewer can publish. *)
Theorem later_updates_are_ignored (v : Viewer)
    (first second : gmap string array) (now1 now2 : Z) :
  exists v1,
    update_point_cloud v first now1 = Ok v1
    /\ update_point_cloud v1 second now2 = Ok v1.
Proof.
  destruct (update_leaves_cycle v first now1) as (v1 & Hupd & Hidle & Hrend).
  exists v1. split; [exact Hupd|]. now apply update_outside_cycle.
Qed.

(** X8: The first update of a new viewer with the three required arrays
    reaches the loop: the next poll returns an output with these arrays,
    the optional normals and the number of points, the poll after it
    returns nothing, and the slot still holds the output. *)
Theorem first_update_reaches_the_loop (point_cloud_data : gmap string array)
    (now : Z) (p c d : array) (n : nat) :
  point_cloud_data !! "points" = Some p ->
  point_cloud_data !! "colors" = Some c ->
  point_cloud_data !! "depths" = Some d ->
  len p = Ok n ->
  exists v1,
    update_point_cloud init point_cloud_data now = Ok v1
    /\ (next_output v1).1
       = Some {| points := p; colors := c; depths := d;
                 normals := point_cloud_data !! "normals";
                 metadata := Some {| timestamp := now; num_points := n |} |}
    /\ (next_output (next_output v1).2).1 = None
    /\ get_latest_output (state_machine (next_output v1).2)
       = Some {| points := p; colors := c; depths := d;
                 normals := point_cloud_data !! "normals";
                 metadata := Some {| timestamp := now; num_points := n |} |}.
Proof.
  intros Hp Hc Hd Hn. unfold update_point_cloud.
  change (start_render (state_machine init))
    with {| state := RENDERING; current_output := None; output_queue := [] |}.
  rewrite (RenderStateMachineFacts.process_in_rendering_ok
             {| state := RENDERING; current_output := None; output_queue := [] |}
             _ now _ eq_refl
             (StateMachineCycle.make_output_of_payload _ now p c d n Hp Hc Hd Hn)).
  simpl. eexists. split; [reflexivity|]. repeat split.
Qed.

Lemma first_update_reaches_the_loop_witness :
  exists v1,
    update_point_cloud init (StateMachineExamples.payload 1) 10 = Ok v1
    /\ (next_output v1).1 = Some (StateMachineExamples.output 1 10)
    /\ (next_output (next_output v1).2).1 = None
    /\ get_latest_output (state_machine (next_output v1).2)
       = Some (StateMachineExamples.output 1 10).
Proof.
  apply (first_update_reaches_the_loop (StateMachineExamples.payload 1) 10%Z
           (StateMachineExamples.cloud 1) (StateMachineExamples.cloud 1)
           (StateMachineExamples.depth_of 1) 1);
    vm_compute; reflexivity.
Defined.

End PointCloudViewerFacts.

(** ** visualization.py: the registry under connects and events *)

Module RegistryFacts.
Import Visualization.

Section Registry.
Context {D Scene : Type}.
Variable draw : D -> result Scene.
Implicit Types (v : @Viewer D Scene) (client_id : Z).

(** X9: A connect registers a running session under the client id, a
    disconnect removes it, and neither touches the session of any other
    client. *)
Theorem sessions_are_isolated v client_id :
  render_statemachines (handle_new_client v client_id) !! client_id
    = Some {| client := client_id; running := true |}
  /\ render_statemachines (handle_disconnect v client_id) !! client_id = None
  /\ forall other,
       other <> client_id ->
       render_statemachines (handle_new_client v client_id) !! other
         = render_statemachines v !! other
       /\ render_statemachines (handle_disconnect v client_id) !! other
          = render_statemachines v !! other.
Proof.
  split; [apply lookup_insert_eq|].
  split; [apply VisualizationFacts.disconnect_unregisters|].
  intros other Hne. split.
  - simpl. now apply lookup_insert_ne.
  - unfold handle_disconnect.
    destruct (render_statemachines v !! client_id); [|reflexivity].
    simpl. now apply lookup_delete_ne.
Qed.

(** X10: A disconnect of a client that is not registered changes nothing, so a
    second disconnect is harmless; and a connect followed by the
    disconnect of a client that was not registered gives the viewer
    back. *)
Theorem disconnect_undoes_connect v client_id :
  render_statemachines v !! client_id = None ->
  handle_disconnect v client_id = v
  /\ handle_disconnect (handle_new_client v client_id) client_id = v
  /\ handle_disconnect
       (handle_disconnect (handle_new_client v client_id) client_id) client_id
     = v.
Proof.
  intros Hnone.
  assert (H1 : handle_disconnect v client_id = v).
  { unfold handle_disconnect. now rewrite Hnone. }
  assert (H2 : handle_disconnect (handle_new_client v client_id) client_id = v).
  { unfold handle_disconnect, handle_new_client. simpl.
    rewrite lookup_insert_eq. rewrite delete_insert_eq.
    rewrite delete_id by exact Hnone. now destruct v. }
  split; [exact H1|]. split; [exact H2|]. now rewrite H2.
Qed.

(** X11: A camera event never changes the registry or the stored 3D data and
    never makes a ready viewer unready; while the viewer is not ready it
    returns silently and changes nothing, for every client. *)
Theorem camera_event_keeps_registry v client_id :
  render_statemachines (on_camera_update draw v client_id).2
    = render_statemachines v
  /\ current_3d_data (on_camera_update draw v client_id).2 = current_3d_data v
  /\ (ready v = true -> ready (on_camera_update draw v client_id).2 = true)
  /\ (ready v = false -> on_camera_update draw v client_id = (Ok (), v)).
Proof.
  unfold on_camera_update, action_move, visualize_3d_data.
  destruct (ready v) eqn:Hready; simpl.
  - destruct (render_statemachines v !! client_id) eqn:Hreg; simpl;
      [|repeat split; intros; auto; congruence].
    destruct (current_3d_data v) as [d|] eqn:Hdata; simpl;
      [|repeat split; intros; auto; congruence].
    destruct (draw d); simpl; repeat split; intros; auto; congruence.
  - repeat split; intros; auto; congruence.
Qed.

End Registry.

Lemma sessions_are_isolated_witness :
  render_statemachines
    (handle_new_client VisualizationExamples.ready_viewer 7) !! 7%Z
    = Some {| client := 7; running := true |}
  /\ render_statemachines
       (handle_disconnect
          (handle_new_client VisualizationExamples.ready_viewer 7) 8) !! 7%Z
     = Some {| client := 7; running := true |}.
Proof.
  destruct (sessions_are_isolated
              (handle_new_client VisualizationExamples.ready_viewer 7) 8)
    as (_ & _ & Hother).
  destruct (sessions_are_isolated VisualizationExamples.ready_viewer 7)
    as (Hnew & _).
  split; [exact Hnew|].
  destruct (Hother 7%Z) as [_ Hdis]; [discriminate|].
  rewrite Hdis. exact Hnew.
Defined.

Lemma disconnect_undoes_connect_witness :
  handle_disconnect VisualizationExamples.ready_viewer 7
    = VisualizationExamples.ready_viewer
  /\ handle_disconnect (handle_new_client VisualizationExamples.ready_viewer 7) 7
     = VisualizationExamples.ready_viewer
  /\ handle_disconnect
       (handle_disconnect
          (handle_new_client VisualizationExamples.ready_viewer 7) 7) 7
     = VisualizationExamples.ready_viewer.
Proof.
  apply (disconnect_undoes_connect VisualizationExamples.ready_viewer 7%Z).
  reflexivity.
Defined.

Lemma camera_event_keeps_registry_witness :
  ready (on_camera_update VisualizationExamples.draw_nothing
           (handle_new_client VisualizationExamples.ready_viewer 7) 7).2 = true.
Proof.
  destruct (camera_event_keeps_registry VisualizationExamples.draw_nothing
              (handle_new_client VisualizationExamples.ready_viewer 7) 7)
    as (_ & _ & Hready & _).
  apply Hready. reflexivity.
Defined.

End RegistryFacts.

(** ** render_image_LinGaoyuan.py: arguments at the edges *)

Module RenderEdgeFacts.
Import RenderImage.

Section Edges.
Context {A St : Type}.
Variable ev : Evaluator A St.
Implicit Types (ray_batch : RayBatch A) (s : St).

(** X12: A batch of no rays is rendered without calling the evaluator: the
    call returns empty coarse and fine dictionaries (the fine tier is not
    [None]) and leaves every entry of the 3D data the empty list it
    started as. *)
Theorem empty_batch_renders_nothing (H W : nat) ray_batch
    (chunk_size render_stride : nat) (train_depth_prior : option (list A))
    (use_updated_prior_depth : bool) s :
  dict_get "ray_o" ray_batch = Some (Some []) ->
  1 <= chunk_size ->
  1 <= render_stride ->
  render_single_image ev H W ray_batch chunk_size render_stride
    train_depth_prior use_updated_prior_depth s
    = (Ok {| outputs_coarse := [];
             outputs_fine := Some [];
             three_d_data :=
               {| ray_origins := StillEmpty; ray_directions := StillEmpty;
                  sample_points := StillEmpty; features := StillEmpty;
                  colors := StillEmpty; densities := StillEmpty;
                  weights := StillEmpty; z_values := StillEmpty |} |}, s).
Proof.
  intros Hro Hc Hs. unfold render_single_image, render_loop, n_rays, dict_getitem.
  rewrite Hro. simpl. unfold py_range. rewrite decide_False by lia. simpl.
  unfold finalize, Torch.strided. simpl. rewrite !decide_False by lia.
  reflexivity.
Qed.

(** X13: A batch without [ray_o], a [ray_o] that is [None], and a chunk size
    of 0 are rejected before the evaluator is called: with [KeyError],
    [AttributeError] and [ValueError]. *)
Theorem bad_batch_is_rejected_first (H W : nat) ray_batch
    (chunk_size render_stride : nat) (train_depth_prior : option (list A))
    (use_updated_prior_depth : bool) s :
  (dict_get "ray_o" ray_batch = None ->
   render_single_image ev H W ray_batch chunk_size render_stride
     train_depth_prior use_updated_prior_depth s
     = (Raise (KeyError (KStr "ray_o")), s))
  /\ (dict_get "ray_o" ray_batch = Some None ->
      render_single_image ev H W ray_batch chunk_size render_stride
        train_depth_prior use_updated_prior_depth s
        = (Raise AttributeError, s))
  /\ (forall rays, dict_get "ray_o" ray_batch = Some (Some rays) ->
      chunk_size = 0 ->
      render_single_image ev H W ray_batch chunk_size render_stride
        train_depth_prior use_updated_prior_depth s
        = (Raise ValueError, s)).
Proof.
  unfold render_single_image, render_loop, n_rays, dict_getitem.
  split; [|split].
  - intros ->. reflexivity.
  - intros ->. reflexivity.
  - intros rays -> ->. reflexivity.
Qed.

(** X14: A batch of at least one ray without [ray_d] is rejected with
    [KeyError] at the first chunk, before the evaluator is called. *)
Theorem missing_directions_raise (H W : nat) ray_batch (rays : list A)
    (chunk_size render_stride : nat) (train_depth_prior : option (list A))
    (use_updated_prior_depth : bool) s :
  dict_get "ray_o" ray_batch = Some (Some rays) ->
  1 <= length rays ->
  1 <= chunk_size ->
  dict_get "ray_d" ray_batch = None ->
  render_single_image ev H W ray_batch chunk_size render_stride
    train_depth_prior use_updated_prior_depth s
    = (Raise (KeyError (KStr "ray_d")), s).
Proof.
  intros Hro HN Hc Hrd.
  unfold render_single_image, render_loop, n_rays, dict_getitem.
  rewrite Hro. simpl.
  destruct (AggregationFacts.py_range_shape (length rays) chunk_size HN Hc)
    as (rest & -> & _).
  cbn [render_chunks]. unfold chunk_step, store_rays, dict_getitem.
  rewrite !RenderImageFacts.dict_get_build_chunk
    by (by apply (bool_decide_unpack _)).
  rewrite Hro, Hrd. reflexivity.
Qed.

Lemma finalize_stride_zero (H W : nat) (acc : Accum A) :
  exists e, finalize H W 0 acc = Raise e.
Proof.
  destruct (finalize H W 0 acc) as [out|e] eqn:Hf; [|by eexists].
  exfalso. unfold finalize in Hf. do 8 peel Hf.
  unfold Torch.strided in Hf. simpl in Hf. discriminate.
Qed.

(** X15: With a render stride of 0 the call never returns an output: the loop
    runs as usual and the merge raises. *)
Theorem stride_zero_never_returns (H W : nat) ray_batch (chunk_size : nat)
    (train_depth_prior : option (list A)) (use_updated_prior_depth : bool) s :
  exists e,
    render_single_image ev H W ray_batch chunk_size 0
      train_depth_prior use_updated_prior_depth s
      = (Raise e,
         (render_loop ev ray_batch chunk_size train_depth_prior
            use_updated_prior_depth s).2).
Proof.
  unfold render_single_image.
  destruct (render_loop _ _ _ _ _ _) as [[acc|e] s']; simpl; [|eauto].
  destruct (finalize_stride_zero H W acc) as [e ->]. eauto.
Qed.

End Edges.

Lemma bad_batch_is_rejected_first_witness :
  render_single_image RenderExamples.color_depth 2 5 RenderExamples.no_ray_o 4 1
    None false () = (Raise (KeyError (KStr "ray_o")), ())
  /\ render_single_image RenderExamples.color_depth 2 5 RenderExamples.null_ray_o
       4 1 None false () = (Raise AttributeError, ())
  /\ render_single_image RenderExamples.color_depth 2 5 RenderExamples.ten_rays
       0 1 None false () = (Raise ValueError, ()).
Proof.
  split; [|split].
  - apply (bad_batch_is_rejected_first RenderExamples.color_depth 2 5
             RenderExamples.no_ray_o 4 1 None false ()). reflexivity.
  - apply (bad_batch_is_rejected_first RenderExamples.color_depth 2 5
             RenderExamples.null_ray_o 4 1 None false ()). reflexivity.
  - destruct (bad_batch_is_rejected_first RenderExamples.color_depth 2 5
                RenderExamples.ten_rays 0 1 None false ()) as (_ & _ & Hzero).
    apply (Hzero [0; 1; 2; 3; 4; 5; 6; 7; 8; 9]%Z); reflexivity.
Defined.

Lemma empty_batch_renders_nothing_witness :
  render_single_image RenderExamples.color_depth 2 5 RenderExamples.no_rays 4 1
    None false ()
    = (Ok {| outputs_coarse := [];
             outputs_fine := Some [];
             three_d_data :=
               {| ray_origins := StillEmpty; ray_directions := StillEmpty;
                  sample_points := StillEmpty; features := StillEmpty;
                  colors := StillEmpty; densities := StillEmpty;
                  weights := StillEmpty; z_values := StillEmpty |} |}, ()).
Proof.
  apply (empty_batch_renders_nothing RenderExamples.color_depth 2 5
           RenderExamples.no_rays 4 1 None false ()).
  - reflexivity.
  - lia.
  - lia.
Defined.

Lemma missing_directions_raise_witness :
  render_single_image RenderExamples.color_depth 1 3 RenderExamples.no_ray_d 2 1
    None false () = (Raise (KeyError (KStr "ray_d")), ()).
Proof.
  apply (missing_directions_raise RenderExamples.color_depth 1 3
           RenderExamples.no_ray_d [0; 1; 2]%Z 2 1 None false ()).
  - reflexivity.
  - simpl. lia.
  - lia.
  - reflexivity.
Defined.

End RenderEdgeFacts.

(** ** render_image_LinGaoyuan.py: what the chunks carry *)

Module ChunkFacts.
Import RenderImage.

Section Views.
Context {A : Type}.
Implicit Types (ray_batch : RayBatch A).

Lemma build_chunk_keys ray_batch chunk_size i :
  dict_keys (build_chunk ray_batch chunk_size i) = dict_keys ray_batch.
Proof.
  unfold dict_keys, build_chunk. induction ray_batch as [|[k v] d IH]; [reflexivity|].
  cbn [fmap list_fmap fst snd]. f_equal; [|exact IH].
  now case_bool_decide.
Qed.

Lemma build_chunk_shared ray_batch chunk_size i k :
  k ∈ shared_keys ->
  dict_get k (build_chunk ray_batch chunk_size i) = dict_get k ray_batch.
Proof.
  intros Hk. induction ray_batch as [|[k' v] d IH]; [reflexivity|].
  cbn [build_chunk fmap list_fmap fst snd]. fold (build_chunk d chunk_size i).
  case_bool_decide as Hshared; simpl.
  - destruct (decide (k' = k)); [reflexivity | exact IH].
  - destruct (decide (k' = k)) as [->|]; [contradiction | exact IH].
Qed.

(** X16: Every chunk has the keys of the batch, in the same order; the entries
    [camera], [depth_range], [src_rgbs] and [src_cameras] go into it
    whole, an entry that is [None] stays [None], and every other entry is
    cut to the rows [i] up to [i + chunk_size]. *)
Theorem chunk_keeps_shared_context ray_batch (chunk_size i : nat) :
  dict_keys (build_chunk ray_batch chunk_size i) = dict_keys ray_batch
  /\ (forall k, k ∈ shared_keys ->
        dict_get k (build_chunk ray_batch chunk_size i) = dict_get k ray_batch)
  /\ (forall k, k ∉ shared_keys ->
        dict_get k ray_batch = Some None ->
        dict_get k (build_chunk ray_batch chunk_size i) = Some None)
  /\ (forall k rows, k ∉ shared_keys ->
        dict_get k ray_batch = Some (Some rows) ->
        dict_get k (build_chunk ray_batch chunk_size i)
          = Some (Some (take chunk_size (drop i rows)))).
Proof.
  split; [apply build_chunk_keys|].
  split; [intros k Hk; now apply build_chunk_shared|].
  split.
  - intros k Hk Hnone. rewrite RenderImageFacts.dict_get_build_chunk by exact Hk.
    now rewrite Hnone.
  - intros k rows Hk Hrows.
    rewrite RenderImageFacts.dict_get_build_chunk by exact Hk.
    rewrite Hrows. simpl. now rewrite RenderImageFacts.py_slice_window.
Qed.



End Views.

Lemma chunk_keeps_shared_context_witness :
  dict_get "camera" (build_chunk RenderExamples.with_camera 2 2)
    = Some (Some [100; 101; 102]%Z)
  /\ dict_get "mask" (build_chunk RenderExamples.with_camera 2 2) = Some None
  /\ dict_get "ray_d" (build_chunk RenderExamples.with_camera 2 2)
     = Some (Some (take 2 (drop 2 [10; 11; 12]%Z))).
Proof.
  destruct (chunk_keeps_shared_context RenderExamples.with_camera 2 2)
    as (_ & Hshared & Hnone & Hrows).
  split; [|split].
  - rewrite Hshared; [reflexivity | by apply (bool_decide_unpack _)].
  - apply Hnone; [by apply (bool_decide_unpack _) | reflexivity].
  - apply Hrows; [by apply (bool_decide_unpack _) | reflexivity].
Defined.


End ChunkFacts.

(** ** render_image_LinGaoyuan.py: the 3D data and failures of a run *)

Module RenderRunFacts.
Import RenderImage.

Lemma mapM_id_Some {X} (l : list X) : mapM id (Some <$> l) = Some l.
Proof. induction l as [|x l IH]; [reflexivity|]. cbn. now rewrite IH. Qed.

Lemma mapM_id_null {X} (l : list (option X)) : None ∈ l -> mapM id l = None.
Proof.
  intros Hin. apply mapM_None, Exists_exists. exists None. now split.
Qed.

Section Run.
Context {A St : Type}.
Variable ev : Evaluator A St.
Variable ray_batch : RayBatch A.
Variable chunk_size : nat.
Variable train_depth_prior : option (list A).
Variable use_updated_prior_depth : bool.

Local Abbreviation loop := (render_chunks ev ray_batch chunk_size train_depth_prior
                              use_updated_prior_depth).
Local Abbreviation step := (chunk_step ev ray_batch chunk_size train_depth_prior
                              use_updated_prior_depth).
Local Abbreviation answers := (evaluations_on ev ray_batch chunk_size
                                 train_depth_prior use_updated_prior_depth).

Lemma accumulate_three_d i ret (acc acc' : Accum A) :
  accumulate i ret acc = Ok acc' ->
  acc_three_d acc' = store_samples ret (acc_three_d acc).
Proof.
  unfold accumulate. intros Hacc. peel Hacc. peel Hacc. peel Hacc.
  now injection Hacc as <-.
Qed.

(** What one iteration that ends normally adds to the 3D lists. *)
Lemma step_three_d i (acc acc' : Accum A) s s' :
  step i acc s = (Ok acc', s') ->
  exists ro rd ret,
    dict_get "ray_o" (build_chunk ray_batch chunk_size i) = Some ro
    /\ dict_get "ray_d" (build_chunk ray_batch chunk_size i) = Some rd
    /\ ev (build_chunk ray_batch chunk_size i)
          (prior_chunk train_depth_prior use_updated_prior_depth chunk_size i) s
       = (Ok ret, s')
    /\ ray_origins (acc_three_d acc') = ray_origins (acc_three_d acc) ++ [ro]
    /\ ray_directions (acc_three_d acc')
       = ray_directions (acc_three_d acc) ++ [rd]
    /\ weights (acc_three_d acc')
       = append_if_in "weights" (ret_outputs_coarse ret)
           (weights (acc_three_d acc)).
Proof.
  unfold chunk_step, store_rays, dict_getitem.
  destruct (dict_get "ray_o" _) as [ro|]; simpl; [|discriminate].
  destruct (dict_get "ray_d" _) as [rd|]; simpl; [|discriminate].
  destruct (ev _ _ s) as [[ret|e] s1]; [|discriminate].
  destruct (accumulate i ret _) as [acc2|e] eqn:Hacc; [|discriminate].
  intros Heq. injection Heq as <- <-.
  rewrite (accumulate_three_d _ _ _ _ Hacc). simpl.
  exists ro, rd, ret. repeat split.
Qed.

Lemma loop_ray_lists (rays : list A) (starts : list nat) :
  forall (acc acc' : Accum A) s s',
  dict_get "ray_o" ray_batch = Some (Some rays) ->
  loop starts acc s = (Ok acc', s') ->
  ray_origins (acc_three_d acc')
    = ray_origins (acc_three_d acc)
        ++ ((fun i => Some (take chunk_size (drop i rays))) <$> starts)
  /\ forall dirs,
       dict_get "ray_d" ray_batch = Some (Some dirs) ->
       ray_directions (acc_three_d acc')
         = ray_directions (acc_three_d acc)
             ++ ((fun i => Some (take chunk_size (drop i dirs))) <$> starts).
Proof.
  induction starts as [|i rest IH]; intros acc acc' s s' Hro Hloop.
  - simpl in Hloop. injection Hloop as <- <-. simpl.
    split; [now rewrite app_nil_r | intros; now rewrite app_nil_r].
  - cbn [render_chunks] in Hloop.
    destruct (step i acc s) as [[acc1|e] s1] eqn:Hstep; [|discriminate].
    destruct (step_three_d _ _ _ _ _ Hstep)
      as (ro & rd & ret & Hgo & Hgd & _ & Ho & Hd & _).
    destruct (IH _ _ _ _ Hro Hloop) as [Ho' Hd'].
    rewrite RenderImageFacts.dict_get_build_chunk in Hgo, Hgd
      by (by apply (bool_decide_unpack _)).
    rewrite Hro in Hgo. simpl in Hgo. injection Hgo as <-.
    split.
    + rewrite Ho', Ho, <- app_assoc. simpl.
      now rewrite RenderImageFacts.py_slice_window.
    + intros dirs Hdirs. rewrite Hdirs in Hgd. simpl in Hgd. injection Hgd as <-.
      rewrite (Hd' dirs Hdirs), Hd, <- app_assoc. simpl.
      now rewrite RenderImageFacts.py_slice_window.
Qed.

Lemma merge_windows (rows : list A) (m : nat) :
  1 <= m ->
  length rows <= m * chunk_size ->
  merge_rays ((fun i => Some (take chunk_size (drop i rows)))
                <$> ((fun k => k * chunk_size) <$> seq 0 m))
    = Ok (Merged rows).
Proof.
  intros Hm Hlen. rewrite <- list_fmap_compose.
  rewrite (list_fmap_compose (fun k => take chunk_size (drop (k * chunk_size) rows))
             Some).
  unfold merge_rays. rewrite mapM_id_Some.
  rewrite (RenderImageFacts.concat_windows chunk_size m rows Hlen).
  destruct m; [lia|]. reflexivity.
Qed.

(** X18: In what a render call returns, the ray origins of the 3D data are the
    rows of [ray_o], each once and in order, and so are the ray
    directions when [ray_d] has as many rows. *)
Theorem three_d_rays_are_the_batch (H W render_stride : nat) (rays : list A)
    (s s' : St) (out : AllRet A) :
  dict_get "ray_o" ray_batch = Some (Some rays) ->
  1 <= length rays ->
  1 <= chunk_size ->
  render_single_image ev H W ray_batch chunk_size render_stride
    train_depth_prior use_updated_prior_depth s = (Ok out, s') ->
  ray_origins (three_d_data out) = Merged rays
  /\ forall dirs,
       dict_get "ray_d" ray_batch = Some (Some dirs) ->
       length dirs = length rays ->
       ray_directions (three_d_data out) = Merged dirs.
Proof.
  intros Hro HN Hc Hrender.
  unfold render_single_image, render_loop, n_rays, dict_getitem in Hrender.
  rewrite Hro in Hrender. simpl in Hrender.
  rewrite RenderImageFacts.py_range_from_zero in Hrender by assumption.
  destruct (loop _ initial s) as [[acc|e] s1] eqn:Hloop; [|discriminate].
  injection Hrender as Hfin _.
  destruct (loop_ray_lists rays _ _ _ _ _ Hro Hloop) as [Ho Hd].
  simpl in Ho, Hd.
  pose proof (RenderImageFacts.windows_cover _ _ HN Hc) as Hcover.
  unfold finalize in Hfin. rewrite Ho in Hfin.
  rewrite merge_windows in Hfin by (assumption || lia).
  cbn [mbind result_bind] in Hfin. split.
  - do 11 peel Hfin. now injection Hfin as <-.
  - intros dirs Hdirs Hlen. rewrite (Hd dirs Hdirs) in Hfin.
    rewrite merge_windows in Hfin by (lia || (rewrite Hlen; assumption)).
    cbn [mbind result_bind] in Hfin.
    do 10 peel Hfin. now injection Hfin as <-.
Qed.

End Run.

Lemma three_d_rays_are_the_batch_witness :
  ray_origins (three_d_data RenderExamples.sigma_output) = Merged [0; 1; 2]%Z
  /\ forall dirs,
       dict_get "ray_d" RenderExamples.three_rays = Some (Some dirs) ->
       length dirs = length [0; 1; 2]%Z ->
       ray_directions (three_d_data RenderExamples.sigma_output) = Merged dirs.
Proof.
  apply (three_d_rays_are_the_batch RenderExamples.with_sigma
           RenderExamples.three_rays 2 None false 1 3 1 [0; 1; 2]%Z () ()).
  - reflexivity.
  - simpl. lia.
  - lia.
  - vm_compute. reflexivity.
Defined.

End RenderRunFacts.

(** ** render_image_LinGaoyuan.py: failures and the merged fields *)

Module RenderFailureFacts.
Import RenderImage.



Section Failures.
Context {A St : Type}.
Variable ev : Evaluator A St.
Variable ray_batch : RayBatch A.
Variable chunk_size : nat.
Variable train_depth_prior : option (list A).
Variable use_updated_prior_depth : bool.

Local Abbreviation loop := (render_chunks ev ray_batch chunk_size train_depth_prior
                              use_updated_prior_depth).
Local Abbreviation answers := (evaluations_on ev ray_batch chunk_size
                                 train_depth_prior use_updated_prior_depth).

(** Chunks that are accumulated normally, followed by a chunk on which
    the evaluator raises: the loop raises the same exception. *)
Lemma loop_later_stops (starts : list nat) : forall (acc : Accum A) s rs e tl,
  Forall (fun i => i <> 0) starts ->
  is_Some (dict_get "ray_o" ray_batch) ->
  is_Some (dict_get "ray_d" ray_batch) ->
  answers starts s = (Ok <$> rs) ++ Raise e :: tl ->
  Forall wf_result rs ->
  (forall r t k v, r ∈ rs -> field_of t k r = Some v -> is_Some (acc_field t k acc)) ->
  exists s', loop starts acc s = (Raise e, s').
Proof.
  induction starts as [|i rest IH]; intros acc s rs e tl Hnz Hro Hrd Hans Hwf Hin.
  - destruct rs; discriminate.
  - rewrite AggregationFacts.answers_cons in Hans.
    apply Forall_cons in Hnz as [Hi Hnz].
    cbn [render_chunks]. unfold chunk_step.
    destruct (AggregationFacts.store_rays_ok ray_batch chunk_size acc i Hro Hrd)
      as [acc1 Hstore].
    rewrite Hstore.
    pose proof (AggregationFacts.store_rays_fields _ _ _ Hstore) as Hsame.
    destruct (ev _ _ s) as [r' s1]. cbn [fst snd] in Hans.
    destruct rs as [|r rs]; simpl in Hans; injection Hans as -> Hans; [eauto|].
    apply Forall_cons in Hwf as [Hwfr Hwf].
    destruct (AggregationFacts.accumulate_later_ok i r acc1 Hi Hwfr)
      as (acc2 & Hacc & Hget & _).
    { intros t k v Hf. rewrite Hsame.
      apply (Hin r t k v); [apply list_elem_of_here | exact Hf]. }
    rewrite Hacc.
    apply (IH acc2 s1 rs e tl Hnz Hro Hrd Hans Hwf).
    intros r1 t k v Hr1 Hf. rewrite Hget, Hsame. apply fmap_is_Some.
    apply (Hin r1 t k v); [now apply list_elem_of_further | exact Hf].
Qed.

(** X19: When the evaluator raises on a chunk, the chunks before it having
    been accumulated normally, the render call raises the exception of
    the evaluator unchanged and returns no output. *)
Theorem evaluator_failure_propagates (H W render_stride : nat) (rays : list A)
    (s : St) (oks : list ChunkResult) (e : exn) (tl : list (result ChunkResult)) :
  dict_get "ray_o" ray_batch = Some (Some rays) ->
  1 <= length rays ->
  1 <= chunk_size ->
  is_Some (dict_get "ray_d" ray_batch) ->
  evaluations ev ray_batch chunk_size train_depth_prior use_updated_prior_depth s
    = (Ok <$> oks) ++ Raise e :: tl ->
  Forall wf_result oks ->
  (forall r0 r t k v, head oks = Some r0 -> r ∈ oks ->
     field_of t k r = Some v -> is_Some (field_of t k r0)) ->
  exists s',
    render_single_image ev H W ray_batch chunk_size render_stride
      train_depth_prior use_updated_prior_depth s = (Raise e, s').
Proof.
  intros Hro HN Hc Hrd Hans Hwf Hin.
  assert (Hloop : exists s',
    render_loop ev ray_batch chunk_size train_depth_prior
      use_updated_prior_depth s = (Raise e, s')).
  { unfold evaluations in Hans. unfold render_loop.
    unfold n_rays, dict_getitem in *. rewrite Hro in *. simpl in Hans. simpl.
    destruct (AggregationFacts.py_range_shape (length rays) chunk_size HN Hc)
      as (rest & Hrange & Hnz).
    rewrite Hrange in *. rewrite AggregationFacts.answers_cons in Hans.
    cbn [render_chunks]. unfold chunk_step.
    destruct (AggregationFacts.store_rays_ok ray_batch chunk_size initial 0)
      as [acc1 Hstore]; [rewrite Hro; eauto | exact Hrd |].
    rewrite Hstore.
    destruct (AggregationFacts.store_rays_tiers _ _ _ Hstore) as [Hc1 Hf1].
    destruct (ev _ _ s) as [r' s1]. cbn [fst snd] in Hans.
    destruct oks as [|r0 rs]; simpl in Hans; injection Hans as -> Hans; [eauto|].
    apply Forall_cons in Hwf as [Hwf0 Hwf].
    destruct (AggregationFacts.accumulate_first r0 acc1 Hc1 Hf1 Hwf0)
      as (acc0 & Hacc & Hget0 & _).
    rewrite Hacc.
    apply (loop_later_stops rest acc0 s1 rs e tl Hnz); try assumption.
    - rewrite Hro; eauto.
    - intros r t k v Hr Hf. rewrite Hget0. apply fmap_is_Some.
      apply (Hin r0 r t k v); [reflexivity | now apply list_elem_of_further | exact Hf]. }
  destruct Hloop as [s' Hloop]. exists s'.
  unfold render_single_image. now rewrite Hloop.
Qed.

(** X20: The fine tier of what a render call returns is [None] exactly when
    the fine tier of the first chunk is [None], whatever the later chunks
    return for it. *)
Theorem fine_tier_follows_first_chunk (H W render_stride : nat) (rays : list A)
    (s s1 : St) (r0 : ChunkResult) (rs : list ChunkResult) (out : AllRet A) :
  dict_get "ray_o" ray_batch = Some (Some rays) ->
  1 <= length rays ->
  1 <= chunk_size ->
  is_Some (dict_get "ray_d" ray_batch) ->
  evaluations ev ray_batch chunk_size train_depth_prior use_updated_prior_depth s
    = Ok <$> r0 :: rs ->
  Forall wf_result (r0 :: rs) ->
  (forall r t k v, r ∈ rs -> field_of t k r = Some v -> is_Some (field_of t k r0)) ->
  render_single_image ev H W ray_batch chunk_size render_stride
    train_depth_prior use_updated_prior_depth s = (Ok out, s1) ->
  outputs_fine out = None <-> ret_outputs_fine r0 = None.
Proof.
  intros Hro HN Hc Hrd Hans Hwf Hin Hrender.
  destruct (AggregationFacts.render_loop_spec ev ray_batch chunk_size
              train_depth_prior use_updated_prior_depth s rays r0 rs
              Hro HN Hc Hrd Hans Hwf Hin) as (acc & s' & Hloop & _ & Hfine).
  unfold render_single_image in Hrender. rewrite Hloop in Hrender.
  injection Hrender as Hfin _.
  destruct (AggregationFacts.finalize_field _ _ _ _ _ Hfin)
    as (h & w & _ & _ & Hnone & _).
  now rewrite Hnone.
Qed.

End Failures.


Lemma evaluator_failure_propagates_witness :
  exists s',
    render_single_image RenderExamples.fails_later 1 3
      RenderExamples.three_rays 2 1 None false ()
      = (Raise (Raised "out of memory"), s').
Proof.
  apply (evaluator_failure_propagates RenderExamples.fails_later
           RenderExamples.three_rays 2 None false 1 3 1 [0; 1; 2]%Z ()
           [RenderExamples.coarse_only
              [("rgb", Some (RenderExamples.rgb_of [0; 1]%Z))]]
           (Raised "out of memory") []).
  - reflexivity.
  - simpl. lia.
  - lia.
  - simpl. eauto.
  - vm_compute. reflexivity.
  - apply Forall_cons; split; [|by apply Forall_nil].
    split; [by apply (bool_decide_unpack _) | exact I].
  - intros r0 r t k v Hhead Hr Hf. injection Hhead as <-.
    apply list_elem_of_singleton in Hr as ->. eauto.
Defined.

Lemma fine_tier_follows_first_chunk_witness :
  outputs_fine RenderExamples.sigma_output = None
  <-> ret_outputs_fine
        (RenderExamples.coarse_only
           [("rgb", Some (RenderExamples.rgb_of [0; 1]%Z));
            ("random_sigma", Some (RenderExamples.per_ray [0; 1]%Z))]) = None.
Proof.
  apply (fine_tier_follows_first_chunk RenderExamples.with_sigma
           RenderExamples.three_rays 2 None false 1 3 1 [0; 1; 2]%Z () ()
           _ [RenderExamples.coarse_only
                [("rgb", Some (RenderExamples.rgb_of [2]%Z));
                 ("random_sigma", Some (RenderExamples.per_ray [2]%Z))]]).
  - reflexivity.
  - simpl. lia.
  - lia.
  - simpl. eauto.
  - vm_compute. reflexivity.
  - apply Forall_cons; split; [|apply Forall_cons; split; [|by apply Forall_nil]];
      (split; [by apply (bool_decide_unpack _) | exact I]).
  - intros r t k v Hr Hf. apply list_elem_of_singleton in Hr as ->.
    destruct t; unfold field_of in *; simpl in *; [|discriminate].
    destruct (decide ("rgb" = k)); [eauto|].
    destruct (decide ("random_sigma" = k)); [eauto | discriminate].
  - vm_compute. reflexivity.
Defined.


Section NullWeights.
Context {A St : Type}.
Variable ev : Evaluator A St.
Variable ray_batch : RayBatch A.
Variable chunk_size : nat.
Variable train_depth_prior : option (list A).
Variable use_updated_prior_depth : bool.

Local Abbreviation loop := (render_chunks ev ray_batch chunk_size train_depth_prior
                              use_updated_prior_depth).
Local Abbreviation answers := (evaluations_on ev ray_batch chunk_size
                                 train_depth_prior use_updated_prior_depth).

Lemma append_if_in_keeps {V} k (d : dict V) (l : list V) (x : V) :
  x ∈ l -> x ∈ append_if_in k d l.
Proof.
  intros Hin. unfold append_if_in. destruct (dict_get k d); [|exact Hin].
  apply elem_of_app. now left.
Qed.

Lemma loop_null_weights (starts : list nat) : forall (acc acc' : Accum A) s s',
  loop starts acc s = (Ok acc', s') ->
  (None ∈ weights (acc_three_d acc) -> None ∈ weights (acc_three_d acc'))
  /\ forall j rj,
       answers starts s !! j = Some (Ok rj) ->
       dict_get "weights" (ret_outputs_coarse rj) = Some None ->
       None ∈ weights (acc_three_d acc').
Proof.
  induction starts as [|i rest IH]; intros acc acc' s s' Hloop.
  - simpl in Hloop. injection Hloop as <- <-. split; [auto|].
    intros j rj Hj. destruct j; discriminate.
  - cbn [render_chunks] in Hloop.
    destruct (chunk_step _ _ _ _ _ i acc s) as [[acc1|e] s1] eqn:Hstep;
      [|discriminate].
    destruct (RenderRunFacts.step_three_d _ _ _ _ _ _ _ _ _ _ Hstep)
      as (ro & rd & ret & _ & _ & Hev & _ & _ & Hw).
    destruct (IH _ _ _ _ Hloop) as [Hkeep Hlater].
    split.
    + intros Hin. apply Hkeep. rewrite Hw. now apply append_if_in_keeps.
    + intros j rj Hj Hnull. rewrite AggregationFacts.answers_cons, Hev in Hj.
      destruct j as [|j]; simpl in Hj.
      * injection Hj as ->. apply Hkeep. rewrite Hw.
        unfold append_if_in. rewrite Hnull. apply elem_of_app. right.
        apply list_elem_of_here.
      * now apply (Hlater j rj).
Qed.

Lemma finalize_null_weights (H W render_stride : nat) (acc : Accum A) :
  None ∈ weights (acc_three_d acc) ->
  exists e, finalize H W render_stride acc = Raise e.
Proof.
  intros Hin. destruct (finalize H W render_stride acc) as [out|e] eqn:Hf;
    [|by eexists].
  exfalso. unfold finalize in Hf. do 7 peel Hf.
  match goal with
  | E : merge_samples (weights _) = Ok _ |- _ =>
      unfold merge_samples, Torch.cat_opt in E;
      rewrite (RenderRunFacts.mapM_id_null _ Hin) in E;
      destruct (weights (acc_three_d acc)); [by apply elem_of_nil in Hin|];
      discriminate E
  end.
Qed.

(** X22: A chunk whose coarse tier has a [weights] entry that is [None] is
    accepted by the loop, which skips the entry for the tier, but it
    leaves a [None] in the 3D weights: the render call then raises in the
    merge and returns no output. *)
Theorem null_weights_break_the_merge (H W render_stride : nat) (s : St)
    (j : nat) (rj : ChunkResult) :
  evaluations ev ray_batch chunk_size train_depth_prior use_updated_prior_depth s
    !! j = Some (Ok rj) ->
  dict_get "weights" (ret_outputs_coarse rj) = Some None ->
  exists e s',
    render_single_image ev H W ray_batch chunk_size render_stride
      train_depth_prior use_updated_prior_depth s = (Raise e, s').
Proof.
  intros Hj Hnull. unfold evaluations in Hj.
  unfold render_single_image, render_loop.
  destruct (n_rays ray_batch) as [N|e]; simpl in Hj; [|discriminate].
  destruct (py_range 0 N chunk_size) as [starts|e]; [|discriminate].
  destruct (loop starts initial s) as [[acc|e] s'] eqn:Hloop; [|eauto].
  destruct (loop_null_weights _ _ _ _ _ Hloop) as [_ Hlater].
  destruct (finalize_null_weights H W render_stride acc (Hlater j rj Hj Hnull))
    as [e ->].
  eauto.
Qed.

End NullWeights.

Lemma null_weights_break_the_merge_witness :
  exists e s',
    render_single_image RenderExamples.null_weights 1 3
      RenderExamples.three_rays 2 1 None false () = (Raise e, s').
Proof.
  apply (null_weights_break_the_merge RenderExamples.null_weights
           RenderExamples.three_rays 2 None false 1 3 1 () 0
           (RenderExamples.coarse_only
              [("rgb", Some (RenderExamples.rgb_of [0; 1]%Z));
               ("weights", None)])).
  - vm_compute. reflexivity.
  - reflexivity.
Defined.

End RenderFailureFacts.
